(** * Jewelry Box: text layout and display sequencing of [jewelrybox.py]

    A shallow embedding of the message handlers of the e-paper notification
    appliance, and the properties of its word wrap, its truncation to the
    visible area, its power sequencing of the display and its replies.

    Python strings are modelled by [string] (a sequence of characters, one
    [ascii] per code point below 256), Python integers by [Z], and the
    number returned by [ImageFont.getlength] by a rational [Q]. *)

From Stdlib Require Import ZArith QArith Qminmax List String Ascii Bool Lia.
From Stdlib Require Import DecimalString.
Import ListNotations.

Local Open Scope string_scope.
Local Open Scope Z_scope.

(** ** Python string primitives *)

Module Py.

(** [s.split(sep)] for a one-character separator: cuts at every occurrence
    of [sep], so that [n] separators always give [n + 1] pieces, some of
    them possibly empty. *)
Fixpoint split (sep : ascii) (s : string) : list string :=
  match s with
  | EmptyString => [EmptyString]
  | String c s' =>
      if Ascii.eqb c sep then EmptyString :: split sep s'
      else match split sep s' with
           | w :: ws => String c w :: ws
           | [] => [String c EmptyString]
           end
  end.

(** [str.isspace] on one code point below 256: TAB, LF, VT, FF, CR, the
    separators FS, GS, RS, US, the space, NEL and the no-break space. *)
Definition isspace (c : ascii) : bool :=
  let n := nat_of_ascii c in
  ((9 <=? n) && (n <=? 13) || (28 <=? n) && (n <=? 31)
   || (n =? 32) || (n =? 133) || (n =? 160))%nat.

(** Truthiness of a string: [if s:] holds for a non-empty string. *)
Definition truthy (s : string) : bool :=
  match s with EmptyString => false | String _ _ => true end.

(** [str(n)] for an integer, as an f-string prints it. *)
Definition str_int (n : Z) : string := NilZero.string_of_int (Z.to_int n).

End Py.

(** ** Whitespace tokens, as the specification words them

    The tokens of a text "split on whitespace" are its maximal runs of
    characters that are not whitespace (Python's [s.split()] without an
    argument).  [runs s] gives the run that opens [s], possibly empty, and
    the tokens that follow it. *)

Section Tokens.

Variable is_ws : ascii -> bool.

Definition cons_run (h : string) (t : list string) : list string :=
  if Py.truthy h then h :: t else t.

Fixpoint runs (s : string) : string * list string :=
  match s with
  | EmptyString => (EmptyString, [])
  | String c s' =>
      let (h, t) := runs s' in
      if is_ws c then (EmptyString, cons_run h t) else (String c h, t)
  end.

Definition tokens_by (s : string) : list string :=
  let (h, t) := runs s in cons_run h t.

End Tokens.

Definition split_whitespace : string -> list string := tokens_by Py.isspace.

(** ** The word wrap of [display_message] (lines 156 to 167) *)

Section Wrap.

(** [current_font.getlength], the measure of a string in pixels. *)
Variable getlength : string -> Q.

(** The horizontal extent of the drawing area ([display_width]). *)
Variable display_width : Z.

Definition fits (s : string) : bool :=
  Qle_bool (getlength s) (inject_Z (display_width - 10)).

(** [(" " if current_line else "")] *)
Definition sep (current_line : string) : string :=
  if Py.truthy current_line then " " else "".

(** One turn of [for word in words], on the pair [(lines, current_line)]. *)
Definition wrap_step (st : list string * string) (word : string)
  : list string * string :=
  let (lines, current_line) := st in
  let test_line := (current_line ++ sep current_line) ++ word in
  if fits test_line
  then (lines, current_line ++ (sep current_line ++ word))
  else ((lines ++ [current_line])%list, word).

Definition wrap_loop (words : list string) (st : list string * string)
  : list string * string :=
  fold_left wrap_step words st.

(** [if current_line: lines.append(current_line)] *)
Definition wrap_finish (st : list string * string) : list string :=
  let (lines, current_line) := st in
  if Py.truthy current_line then (lines ++ [current_line])%list else lines.

Definition wrap_words (words : list string) : list string :=
  wrap_finish (wrap_loop words ([], "")).

Definition wrap_lines (text : string) : list string :=
  wrap_words (Py.split " " text).

(** *** The greedy rule in the words of the specification

    A token joins the current line, after a single space, as long as the
    line so obtained is not wider than the usable width; otherwise the
    current line is closed and the token opens the next one. *)

Definition join (line token : string) : string :=
  match line with
  | EmptyString => token
  | _ => line ++ " " ++ token
  end.

Fixpoint greedy (line : string) (toks : list string) : list string :=
  match toks with
  | [] => match line with EmptyString => [] | _ => [line] end
  | tok :: rest =>
      if fits (join line tok) then greedy (join line tok) rest
      else line :: greedy tok rest
  end.

Definition spec_wrap (text : string) : list string :=
  greedy "" (split_whitespace text).

End Wrap.

(** A font of fixed pitch, [px] pixels for each character. *)
Definition monospaced (px : Z) (s : string) : Q :=
  inject_Z (px * Z.of_nat (String.length s)).

(** A font whose measure never shrinks when text is added on either side. *)
Definition monotone (gl : string -> Q) : Prop :=
  forall a b : string, (gl a <= gl (a ++ b))%Q /\ (gl b <= gl (a ++ b))%Q.

Definition TAB : ascii := "009"%char.
Definition LF : ascii := "010"%char.

(** ** The world around the handlers

    The e-paper driver, the imaging library and the chat transport are
    outside the program.  Every call into the driver or the imaging library
    is a [call]; whether it returns or raises is decided by the
    environment, as a function of the number of calls made before it, so
    that any deterministic run of the collaborators can be described. *)

Inductive font := font18 | font24.

(** A raster is described by what was asked of it: its size, its
    background, the texts drawn on it in order, and how far it was turned. *)
Record image := {
  img_size : Z * Z;
  img_background : Z;
  img_text : list (Z * Z * string * font);
  img_rotation : Z
}.

Inductive call :=
| epd_init
| epd_Clear
| epd_display (black red : image)
| epd_sleep
| epd_getbuffer (img : image)
| Image_new (size : Z * Z)
| ImageDraw_Draw (img : image)
| font_getlength (f : font) (s : string)
| draw_text (xy : Z * Z) (line : string) (f : font)
| image_rotate (img : image) (angle : Z).

(** The four operations of the display sink: wake, clear, paint, sleep. *)
Definition is_sink (c : call) : bool :=
  match c with
  | epd_init | epd_Clear | epd_display _ _ | epd_sleep => true
  | _ => false
  end.

Definition paints (c : call) : bool :=
  match c with
  | epd_Clear | epd_display _ _ => true
  | _ => false
  end.

Inductive power := Asleep | Active.

(** A call that returns moves the panel: [init] wakes it, [sleep] puts it
    to sleep, painting and clearing leave it awake.  A call that raises
    leaves the panel as it was. *)
Definition power_after (c : call) (p : power) : power :=
  match c with
  | epd_init => Active
  | epd_sleep => Asleep
  | _ => p
  end.

Inductive level := INFO | WARNING | ERROR.

(** A sink entry is the call with [None] when it returned and [Some e]
    when it raised [e]. *)
Definition entry : Type := call * option string.

Record world := {
  clock : nat;
  sink : list entry;
  power_state : power;
  replies : list string;
  log : list (level * string);
  running : bool
}.

Record env := {
  CHAT_ID : Z;
  EPD_WIDTH : Z;
  EPD_HEIGHT : Z;
  getlength : font -> string -> Q;
  raises : nat -> call -> option string
}.

(** ** A monad for state and exceptions

    A Python exception keeps the effects that came before it, so the state
    is returned on both outcomes. *)

Inductive outcome (A : Type) :=
| Return (a : A)
| Raise (e : string).

Arguments Return {A} a.
Arguments Raise {A} e.

Definition M (A : Type) : Type := world -> outcome A * world.

Definition ret {A} (a : A) : M A := fun w => (Return a, w).

Definition bind {A B} (m : M A) (k : A -> M B) : M B :=
  fun w =>
    match m w with
    | (Return a, w') => k a w'
    | (Raise e, w') => (Raise e, w')
    end.

(** [try: body except Exception as e: handler e] *)
Definition try_except {A} (body : M A) (handler : string -> M A) : M A :=
  fun w =>
    match body w with
    | (Return a, w') => (Return a, w')
    | (Raise e, w') => handler e w'
    end.

Declare Scope py_scope.
Delimit Scope py_scope with py.
Notation "x <- m ;; k" := (bind m (fun x => k))
  (at level 61, m at next level, right associativity) : py_scope.
Notation "m ;; k" := (bind m (fun _ => k))
  (at level 61, right associativity) : py_scope.

Definition returned (e : entry) : bool :=
  match snd e with None => true | Some _ => false end.

Definition is_sleep (e : entry) : bool :=
  match fst e with epd_sleep => true | _ => false end.

(** Every entry selected by [P] is directly followed by a sleep call. *)
Fixpoint followed_by_sleep (P : entry -> bool) (tr : list entry) : bool :=
  match tr with
  | [] => true
  | e :: rest =>
      (if P e then match rest with
                   | e' :: _ => is_sleep e'
                   | [] => false
                   end
       else true) && followed_by_sleep P rest
  end.

Definition attempted_paint (e : entry) : bool := paints (fst e).
Definition completed_paint (e : entry) : bool := paints (fst e) && returned e.

Section Handlers.

Variable E : env.

Local Open Scope py_scope.

(** A call into a collaborator. *)
Definition invoke (c : call) : M unit :=
  fun w =>
    let r := raises E (clock w) c in
    (match r with None => Return tt | Some e => Raise e end,
     {| clock := S (clock w);
        sink := if is_sink c then (sink w ++ [(c, r)])%list else sink w;
        power_state := match r with
                       | None => power_after c (power_state w)
                       | Some _ => power_state w
                       end;
        replies := replies w;
        log := log w;
        running := running w |}).

(** [logging.info], [logging.warning], [logging.error] *)
Definition logging (l : level) (msg : string) : M unit :=
  fun w =>
    (Return tt,
     {| clock := clock w; sink := sink w; power_state := power_state w;
        replies := replies w;
        log := (log w ++ [(l, msg)])%list;
        running := running w |}).

(** [await update.message.reply_text(msg)], on a transport that delivers. *)
Definition reply_text (msg : string) : M unit :=
  fun w =>
    (Return tt,
     {| clock := clock w; sink := sink w; power_state := power_state w;
        replies := (replies w ++ [msg])%list;
        log := log w;
        running := running w |}).

(** [await context.application.stop()], taken to return once the loop is
    told to stop; what the library does with a stop awaited from inside a
    handler is outside this model. *)
Definition application_stop : M unit :=
  fun w =>
    (Return tt,
     {| clock := clock w; sink := sink w; power_state := power_state w;
        replies := replies w; log := log w;
        running := false |}).

(** *** The imaging library *)

Definition new_image (size : Z * Z) (background : Z) : M image :=
  invoke (Image_new size) ;;
  ret {| img_size := size; img_background := background;
         img_text := []; img_rotation := 0 |}.

Definition measure (f : font) (s : string) : M Q :=
  invoke (font_getlength f s) ;; ret (getlength E f s).

Definition text (img : image) (xy : Z * Z) (line : string) (f : font) : M image :=
  invoke (draw_text xy line f) ;;
  ret {| img_size := img_size img; img_background := img_background img;
         img_text := (img_text img ++ [(fst xy, snd xy, line, f)])%list;
         img_rotation := img_rotation img |}.

(** [img.rotate(angle, expand=True)] for a quarter turn. *)
Definition rotate (img : image) (angle : Z) : M image :=
  invoke (image_rotate img angle) ;;
  ret {| img_size := (snd (img_size img), fst (img_size img));
         img_background := img_background img;
         img_text := img_text img;
         img_rotation := (img_rotation img + angle) mod 360 |}.

Definition getbuffer (img : image) : M image :=
  invoke (epd_getbuffer img) ;; ret img.

(** *** [display_message] *)

Definition select_font (font_size : Z) : font :=
  if font_size =? 18 then font18
  else if font_size =? 24 then font24
  else font18.

(** The loop of lines 159 to 165, each measurement being a call. *)
Fixpoint wrap_loop_m (current_font : font) (display_width : Z)
    (words : list string) (st : list string * string)
  : M (list string * string) :=
  match words with
  | [] => ret st
  | word :: rest =>
      let (lines, current_line) := st in
      let test_line := (current_line ++ sep current_line) ++ word in
      len <- measure current_font test_line ;;
      if Qle_bool len (inject_Z (display_width - 10))
      then wrap_loop_m current_font display_width rest
             (lines, current_line ++ (sep current_line ++ word))
      else wrap_loop_m current_font display_width rest
             ((lines ++ [current_line])%list, word)
  end.

(** The loop of lines 172 to 176. *)
Fixpoint draw_loop (current_font : font) (display_height line_height : Z)
    (lines : list string) (y_offset : Z) (image_black : image) : M image :=
  match lines with
  | [] => ret image_black
  | line :: rest =>
      if y_offset + line_height >? display_height - 5 then ret image_black
      else
        image_black <- text image_black (5, y_offset) line current_font ;;
        draw_loop current_font display_height line_height rest
          (y_offset + line_height) image_black
  end.

(** Lines 137 to 180: the two planes, the wrap, the drawing, the turn. *)
Definition compose (message : string) (font_size : Z) : M (image * image) :=
  image_black <- new_image (EPD_HEIGHT E, EPD_WIDTH E) 255 ;;
  image_red <- new_image (EPD_HEIGHT E, EPD_WIDTH E) 255 ;;
  invoke (ImageDraw_Draw image_black) ;;
  invoke (ImageDraw_Draw image_red) ;;
  let current_font := select_font font_size in
  let display_width := EPD_HEIGHT E in
  let display_height := EPD_WIDTH E in
  let words := Py.split " " message in
  st <- wrap_loop_m current_font display_width words ([], "") ;;
  let lines := wrap_finish st in
  let y_offset := 5 in
  let line_height := font_size + 2 in
  image_black <- draw_loop current_font display_height line_height lines
                   y_offset image_black ;;
  image_black <- rotate image_black 270 ;;
  image_red <- rotate image_red 270 ;;
  ret (image_black, image_red).

Definition display_message (message : string) (font_size : Z) : M unit :=
  try_except
    (invoke epd_init ;;
     planes <- compose message font_size ;;
     buffer_black <- getbuffer (fst planes) ;;
     buffer_red <- getbuffer (snd planes) ;;
     invoke (epd_display buffer_black buffer_red) ;;
     logging INFO "Message sent to display." ;;
     invoke epd_sleep ;;
     logging INFO "Display put to sleep after update.")
    (fun e => logging ERROR ("Error displaying message: " ++ e)).

(** *** The handlers of the bot *)

Record update := {
  effective_user_id : Z;
  message_text : string
}.

Definition start_command (u : update) : M unit :=
  logging INFO ("Received /start command from "
                ++ Py.str_int (effective_user_id u)) ;;
  if negb (effective_user_id u =? CHAT_ID E) then
    logging WARNING ("Unauthorized user " ++ Py.str_int (effective_user_id u)
                     ++ " tried to use bot. Expected chat_id: "
                     ++ Py.str_int (CHAT_ID E)) ;;
    reply_text "You are not authorized to control this bot."
  else
    reply_text "Welcome to your Jewelry Box! Send me a message to display on the e-paper screen.".

Definition handle_message (u : update) : M unit :=
  let user_id := effective_user_id u in
  let message_text := message_text u in
  logging INFO ("Received message from " ++ Py.str_int user_id ++ ": '"
                ++ message_text ++ "'") ;;
  if negb (user_id =? CHAT_ID E) then
    logging WARNING ("Unauthorized message from " ++ Py.str_int user_id
                     ++ ". Expected chat_id: " ++ Py.str_int (CHAT_ID E)) ;;
    reply_text "You are not authorized to send messages to this display."
  else
    display_message message_text 24 ;;
    reply_text "Message sent to e-paper display!".

Definition clear_command (u : update) : M unit :=
  let user_id := effective_user_id u in
  logging INFO ("Received /clear command from " ++ Py.str_int user_id) ;;
  if negb (user_id =? CHAT_ID E) then
    logging WARNING ("Unauthorized user " ++ Py.str_int user_id
                     ++ " tried to clear display. Expected chat_id: "
                     ++ Py.str_int (CHAT_ID E)) ;;
    reply_text "You are not authorized to clear this display."
  else
    try_except
      (invoke epd_init ;;
       invoke epd_Clear ;;
       invoke epd_sleep ;;
       reply_text "E-paper display cleared!" ;;
       logging INFO "E-paper display cleared by command.")
      (fun e =>
         logging ERROR ("Error clearing display via command: " ++ e) ;;
         reply_text ("Error clearing display: " ++ e)).

Definition shutdown_command (u : update) : M unit :=
  let user_id := effective_user_id u in
  logging INFO ("Received /shutdown command from " ++ Py.str_int user_id) ;;
  if negb (user_id =? CHAT_ID E) then
    logging WARNING ("Unauthorized user " ++ Py.str_int user_id
                     ++ " tried to shutdown. Expected chat_id: "
                     ++ Py.str_int (CHAT_ID E)) ;;
    reply_text "You are not authorized to shutdown the bot."
  else
    reply_text "Shutting down bot. The display will remain as is. Restart the script on the Pi to resume." ;;
    logging INFO "Bot shutting down gracefully." ;;
    application_stop.

(** The handlers registered in [main]: three commands, and any other text. *)
Inductive kind := start | clear | shutdown | plain_text.

Definition handler (k : kind) : update -> M unit :=
  match k with
  | start => start_command
  | clear => clear_command
  | shutdown => shutdown_command
  | plain_text => handle_message
  end.

Definition rejection (k : kind) : string :=
  match k with
  | start => "You are not authorized to control this bot."
  | clear => "You are not authorized to clear this display."
  | shutdown => "You are not authorized to shutdown the bot."
  | plain_text => "You are not authorized to send messages to this display."
  end.

End Handlers.

(** ** Concrete surroundings *)

(** The state in which the serving loop starts: the start-up sequence has
    woken, cleared and put the panel to sleep. *)
Definition boot : world :=
  {| clock := 0; sink := []; power_state := Asleep;
     replies := []; log := []; running := true |}.

(** The 2.13 inch panel, 122 by 250 pixels, with fonts of fixed pitch. *)
Definition panel (faults : nat -> call -> option string) : env :=
  {| CHAT_ID := 1001;
     EPD_WIDTH := 122;
     EPD_HEIGHT := 250;
     getlength := fun f => match f with
                           | font18 => monospaced 9
                           | font24 => monospaced 12
                           end;
     raises := faults |}.

Definition healthy : nat -> call -> option string := fun _ _ => None.

Definition paint_fails : nat -> call -> option string :=
  fun _ c => match c with
             | epd_display _ _ => Some "SPI transfer failed"
             | _ => None
             end.

Definition clear_fails : nat -> call -> option string :=
  fun _ c => match c with
             | epd_Clear => Some "SPI transfer failed"
             | _ => None
             end.

Definition owner (msg : string) : update :=
  {| effective_user_id := 1001; message_text := msg |}.

Definition stranger (msg : string) : update :=
  {| effective_user_id := 4242; message_text := msg |}.

(** ** Vocabulary of the properties *)

(** What an observer of the appliance sees of a state: everything but the
    count of calls. *)
Definition same_surface (w w' : world) : Prop :=
  sink w' = sink w
  /\ power_state w' = power_state w
  /\ replies w' = replies w
  /\ log w' = log w
  /\ running w' = running w.

(** A computation that touches neither the sink, nor the chat, nor the log. *)
Definition quiet {A} (m : M A) : Prop :=
  forall w, same_surface w (snd (m w)).

(** The sink calls of one wake, paint or clear, sleep cycle, with the power
    state it starts from and ends in, and the error that cut it short. *)
Inductive cycle (p0 : power) : list entry -> power -> option string -> Prop :=
| wake_failed e :
    cycle p0 [(epd_init, Some e)] p0 (Some e)
| render_failed e :
    cycle p0 [(epd_init, None)] Active (Some e)
| paint_failed c e :
    paints c = true ->
    cycle p0 [(epd_init, None); (c, Some e)] Active (Some e)
| sleep_failed c e :
    paints c = true ->
    cycle p0 [(epd_init, None); (c, None); (epd_sleep, Some e)] Active (Some e)
| cycle_done c :
    paints c = true ->
    cycle p0 [(epd_init, None); (c, None); (epd_sleep, None)] Asleep None.

(** Sleep is called right after every paint or clear that returned; when
    that sleep returns the panel is asleep; and once a paint or clear has
    raised, no sleep is called and the panel stays awake. *)
Definition sleeps_after_completed_paint (new : list entry) (p : power) : Prop :=
  followed_by_sleep completed_paint new = true
  /\ (In (epd_sleep, None) new -> p = Asleep)
  /\ (forall c e, paints c = true -> In (c, Some e) new ->
                  existsb is_sleep new = false /\ p = Active).

(** A computation that returns, whatever the state it starts in, a value
    satisfying [P], and is quiet. *)
Definition returns {A} (m : M A) (P : A -> Prop) : Prop :=
  forall w, exists a w', m w = (Return a, w') /\ same_surface w w' /\ P a.

(** The lines of a page, 5 pixels from the left, one line height apart. *)
Fixpoint placed (f : font) (line_height y_offset : Z) (lines : list string)
  : list (Z * Z * string * font) :=
  match lines with
  | [] => []
  | line :: rest =>
      (5, y_offset, line, f) :: placed f line_height (y_offset + line_height) rest
  end.

(** ** Start of the process (lines 93 to 103)

    [epd2in13b_V4.EPD()] only records the pins and the size of the panel;
    the three driver calls that follow may raise.  [exit(1)] is rendered by
    the exit status, [None] standing for a process that goes on. *)
Definition startup (E : env) : M (option Z) :=
  try_except
    (logging INFO "Initializing e-Paper display..." ;;
     invoke E epd_init ;;
     invoke E epd_Clear ;;
     invoke E epd_sleep ;;
     logging INFO "e-Paper display initialized, cleared, and put to sleep." ;;
     ret None)%py
    (fun e =>
       logging ERROR ("Error initializing e-Paper display: " ++ e) ;;
       ret (Some 1))%py.

(** ** Vocabulary of the further properties *)

(** Whatever a computation returns, when it returns, satisfies [P]. *)
Definition ensures {A} (m : M A) (P : A -> Prop) : Prop :=
  forall w a w', m w = (Return a, w') -> P a.

(** The vertical position of a drawn text. *)
Definition drawn_y (d : Z * Z * string * font) : Z := snd (fst (fst d)).

(** The two planes of a page of [display_message]: both of the native size
    of the panel after the quarter turn, white, the red one empty, the
    black one holding the first lines of the wrap of the message, each at
    its place and above the bottom margin. *)
Definition page_frame (E : env) (message : string) (font_size : Z)
    (black red : image) : Prop :=
  img_size black = (EPD_WIDTH E, EPD_HEIGHT E)
  /\ img_size red = (EPD_WIDTH E, EPD_HEIGHT E)
  /\ img_background black = 255 /\ img_background red = 255
  /\ img_rotation black = 270 /\ img_rotation red = 270
  /\ img_text red = []
  /\ exists n : nat,
       img_text black
       = placed (select_font font_size) (font_size + 2) 5
           (firstn n (wrap_lines (getlength E (select_font font_size))
                        (EPD_HEIGHT E) message))
       /\ Forall (fun d => drawn_y d + (font_size + 2) <= EPD_WIDTH E - 5)
                 (img_text black).

(** A paint or a clear comes only right after a wake that returned. *)
Definition woken_before_paint (new : list entry) : Prop :=
  forall pre c o post,
    new = (pre ++ (c, o) :: post)%list -> paints c = true ->
    pre = [(epd_init, None)].

(** Is this the handler of [/shutdown], run for the configured identity? *)
Definition stops (E : env) (k : kind) (u : update) : bool :=
  match k with
  | shutdown => effective_user_id u =? CHAT_ID E
  | _ => false
  end.

(** Does this handler drive the display for the configured identity? *)
Definition drives (E : env) (k : kind) (u : update) : bool :=
  match k with
  | clear | plain_text => effective_user_id u =? CHAT_ID E
  | _ => false
  end.

(** ** Vocabulary on the characters of a message *)

(** The text made of the strings of a list, one after the other. *)
Definition flatten (ls : list string) : string :=
  fold_right String.append "" ls.

(** A string without its space characters. *)
Fixpoint without_spaces (s : string) : string :=
  match s with
  | EmptyString => EmptyString
  | String c s' =>
      if Ascii.eqb c " " then without_spaces s'
      else String c (without_spaces s')
  end.

Definition starts_with_space (s : string) : bool :=
  match s with
  | String c _ => Ascii.eqb c " "
  | EmptyString => false
  end.

(** ** Loading the configuration ([load_config], lines 30 to 68) *)

Module Config.

(** [s.lstrip(chars)], [s.rstrip(chars)] and [s.strip(chars)], the set of
    characters being given by a test. *)
Fixpoint lstrip (p : ascii -> bool) (s : string) : string :=
  match s with
  | EmptyString => EmptyString
  | String c s' => if p c then lstrip p s' else s
  end.

Fixpoint rstrip (p : ascii -> bool) (s : string) : string :=
  match s with
  | EmptyString => EmptyString
  | String c s' =>
      match rstrip p s' with
      | EmptyString => if p c then EmptyString else String c EmptyString
      | r => String c r
      end
  end.

Definition strip_by (p : ascii -> bool) (s : string) : string :=
  rstrip p (lstrip p s).

(** [s.strip()] *)
Definition strip : string -> string := strip_by Py.isspace.

(** The characters stripped from a value: the single and the double quote. *)
Definition is_quote (c : ascii) : bool :=
  Ascii.eqb c "'" || Ascii.eqb c "034".

(** [s.startswith('#')] *)
Definition is_comment (s : string) : bool :=
  match s with
  | String c _ => Ascii.eqb c "#"
  | EmptyString => false
  end.

(** [if '=' in line: key, value = line.split('=', 1)]: the text before
    the first occurrence of the separator and the text after it, when
    there is one. *)
Fixpoint partition (sep : ascii) (s : string) : option (string * string) :=
  match s with
  | EmptyString => None
  | String c s' =>
      if Ascii.eqb c sep then Some (EmptyString, s')
      else match partition sep s' with
           | Some (key, value) => Some (String c key, value)
           | None => None
           end
  end.

(** [not x] for a value that is [None] or a string. *)
Definition missing (x : option string) : bool :=
  match x with
  | Some s => negb (Py.truthy s)
  | None => true
  end.

(** One turn of [for line in f], on the pair [(token, chat_id)]. *)
Definition config_line (st : option string * option string) (line : string)
  : option string * option string :=
  let line := strip line in
  if negb (Py.truthy line) || is_comment line then st
  else
    match partition "=" line with
    | Some (key, value) =>
        let key := strip key in
        let value := strip_by is_quote (strip value) in
        if (key =? "JEWELRYBOX_BOT_TOKEN")%string then (Some value, snd st)
        else if (key =? "JEWELRYBOX_CHAT_ID")%string then (fst st, Some value)
        else st
    | None => st
    end.

(** What [load_config] ends in: the pair it returns, or [exit(code)]. *)
Inductive loaded :=
| Credentials (token : string) (chat_id : Z)
| SystemExit (code : Z).

Section Load.

(** [int(s)] on a string: [None] when it raises [ValueError]. *)
Variable int : string -> option Z.

(** [os.environ.get] *)
Variable environ : string -> option string.

(** The path of the file, and its lines when the file exists. *)
Variable config_path : string.
Variable config_file : option (list string).

Definition read_config : list (level * string) * (option string * option string) :=
  let token := environ "JEWELRYBOX_BOT_TOKEN" in
  let chat_id := environ "JEWELRYBOX_CHAT_ID" in
  if missing token || missing chat_id then
    match config_file with
    | Some lines =>
        ([(INFO, "Loading config from " ++ config_path)],
         fold_left config_line lines (token, chat_id))
    | None => ([], (token, chat_id))
    end
  else ([], (token, chat_id)).

Definition load_config : list (level * string) * loaded :=
  let (log, st) := read_config in
  match fst st with
  | Some (String _ _ as token) =>
      match snd st with
      | Some (String _ _ as chat_id) =>
          match int chat_id with
          | Some n => (log, Credentials token n)
          | None =>
              ((log ++ [(ERROR, ("JEWELRYBOX_CHAT_ID must be an integer, got: "
                                 ++ chat_id)%string)])%list,
               SystemExit 1)
          end
      | _ =>
          ((log ++ [(ERROR, "Chat ID not found. Set JEWELRYBOX_CHAT_ID env var or create ~/.jewelrybox_env")])%list,
           SystemExit 1)
      end
  | _ =>
      ((log ++ [(ERROR, "Bot token not found. Set JEWELRYBOX_BOT_TOKEN env var or create ~/.jewelrybox_env")])%list,
       SystemExit 1)
  end.

End Load.

(** A line of the file that sets nothing: blank, a comment, without an
    equal sign, or naming another key. *)
Definition inert (line : string) : bool :=
  let line := strip line in
  negb (Py.truthy line) || is_comment line
  || match partition "=" line with
     | Some (key, _) =>
         negb (strip key =? "JEWELRYBOX_BOT_TOKEN")%string
         && negb (strip key =? "JEWELRYBOX_CHAT_ID")%string
     | None => true
     end.

(** A value that stripping leaves as it is: it neither begins nor ends
    with a whitespace character or a quote. *)
Definition plain (value : string) : Prop :=
  lstrip Py.isspace value = value /\ rstrip Py.isspace value = value
  /\ lstrip is_quote value = value /\ rstrip is_quote value = value.

(** A reading of decimal numerals, to run the examples: digits only. *)
Fixpoint digits (acc : Z) (s : string) : option Z :=
  match s with
  | EmptyString => Some acc
  | String c s' =>
      let n := Z.of_nat (nat_of_ascii c) in
      if (48 <=? n) && (n <=? 57) then digits (10 * acc + (n - 48)) s'
      else None
  end.

Definition decimal (s : string) : option Z :=
  match s with
  | EmptyString => None
  | _ => digits 0 s
  end.

End Config.

(** ** The clear command on a transport that may fail

    [reply_text] is awaited on the network and may raise.  [sends] tells,
    from the state in which the reply is attempted and its text, whether
    it is delivered ([None]) or raises; a reply that raises is not added
    to the replies.  In [clear_command] the notice of success is sent
    inside the [try] (lines 231 to 236), so its failure is handled like
    the failure of a sink call; the reply of the handler is outside. *)

Definition reply_text_via (sends : world -> string -> option string)
    (msg : string) : M unit :=
  fun w =>
    match sends w msg with
    | None => reply_text msg w
    | Some e => (Raise e, w)
    end.

Definition clear_command_via (E : env)
    (sends : world -> string -> option string) (u : update) : M unit :=
  (let user_id := effective_user_id u in
   logging INFO ("Received /clear command from " ++ Py.str_int user_id) ;;
   if negb (user_id =? CHAT_ID E) then
     logging WARNING ("Unauthorized user " ++ Py.str_int user_id
                      ++ " tried to clear display. Expected chat_id: "
                      ++ Py.str_int (CHAT_ID E)) ;;
     reply_text_via sends "You are not authorized to clear this display."
   else
     try_except
       (invoke E epd_init ;;
        invoke E epd_Clear ;;
        invoke E epd_sleep ;;
        reply_text_via sends "E-paper display cleared!" ;;
        logging INFO "E-paper display cleared by command.")
       (fun e =>
          logging ERROR ("Error clearing display via command: " ++ e) ;;
          reply_text_via sends ("Error clearing display: " ++ e)))%py.

(** A transport that delivers every reply, and one that times out on the
    notice of success only. *)
Definition delivers : world -> string -> option string := fun _ _ => None.

Definition loses_success : world -> string -> option string :=
  fun _ msg =>
    if (msg =? "E-paper display cleared!")%string then Some "Timed out"
    else None.

(** * Properties *)

Example split_single : Py.split " " "Hello big world" = ["Hello"; "big"; "world"].
Proof. reflexivity. Qed.

Example split_double : Py.split " " " a  b " = [""; "a"; ""; "b"; ""].
Proof. reflexivity. Qed.

Example split_empty : Py.split " " "" = [""].
Proof. reflexivity. Qed.

Example tokens_double :
  split_whitespace (" a  b" ++ String TAB "c ") = ["a"; "b"; "c"].
Proof. reflexivity. Qed.

Example wrap_scenario :
  wrap_lines (monospaced 6) 240 "Hello world this is a jewelry box test message and it goes on"
  = ["Hello world this is a jewelry box test"; "message and it goes on"].
Proof. vm_compute. reflexivity. Qed.

(** ** Strings *)

Lemma append_assoc (a b c : string) : (a ++ b) ++ c = a ++ (b ++ c).
Proof. induction a as [|x a IH]; simpl; [reflexivity | now rewrite IH]. Qed.

Lemma append_empty_r (a : string) : a ++ "" = a.
Proof. induction a as [|x a IH]; simpl; [reflexivity | now rewrite IH]. Qed.

Lemma length_append (a b : string) :
  String.length (a ++ b) = (String.length a + String.length b)%nat.
Proof. induction a as [|x a IH]; simpl; [reflexivity | now rewrite IH]. Qed.

Lemma split_not_nil (c : ascii) (s : string) : Py.split c s <> [].
Proof.
  destruct s as [|x s]; simpl; [discriminate|].
  destruct (Ascii.eqb x c); [discriminate|].
  destruct (Py.split c s); discriminate.
Qed.

(** ** Whitespace tokens *)

Section TokenFacts.

Variable is_ws : ascii -> bool.

Lemma cons_run_app (h : string) (t u : list string) :
  (cons_run h t ++ u = cons_run h (t ++ u))%list.
Proof. unfold cons_run; destruct (Py.truthy h); reflexivity. Qed.

Lemma tokens_by_empty : tokens_by is_ws "" = [].
Proof. reflexivity. Qed.

(** A whitespace character between two texts keeps their tokens apart. *)
Lemma runs_append_ws (c : ascii) (a b : string) :
  is_ws c = true ->
  runs is_ws (a ++ String c b)
  = (fst (runs is_ws a), (snd (runs is_ws a) ++ tokens_by is_ws b)%list).
Proof.
  intros Hc. induction a as [|x a IH]; simpl.
  - rewrite Hc. unfold tokens_by. destruct (runs is_ws b); reflexivity.
  - rewrite IH. destruct (runs is_ws a) as [h t]; simpl.
    destruct (is_ws x); simpl; [|reflexivity].
    now rewrite cons_run_app.
Qed.

Lemma tokens_by_append_ws (c : ascii) (a b : string) :
  is_ws c = true ->
  tokens_by is_ws (a ++ String c b)
  = (tokens_by is_ws a ++ tokens_by is_ws b)%list.
Proof.
  intros Hc. unfold tokens_by at 1 2. rewrite (runs_append_ws c a b Hc).
  destruct (runs is_ws a) as [h t]; simpl. now rewrite cons_run_app.
Qed.

(** The pieces cut at a whitespace character carry the tokens of the text. *)
Lemma runs_split (c : ascii) (s : string) :
  is_ws c = true ->
  runs is_ws s
  = match Py.split c s with
    | w :: ws =>
        (fst (runs is_ws w),
         (snd (runs is_ws w) ++ flat_map (tokens_by is_ws) ws)%list)
    | [] => ("", [])
    end.
Proof.
  intros Hc. induction s as [|x s IH]; simpl; [reflexivity|].
  destruct (Ascii.eqb_spec x c) as [->|Hx].
  - rewrite Hc, IH. simpl.
    destruct (Py.split c s) as [|w ws] eqn:Hs; simpl; [reflexivity|].
    unfold tokens_by at 2. destruct (runs is_ws w) as [h t]; simpl.
    now rewrite cons_run_app.
  - rewrite IH.
    destruct (Py.split c s) as [|w ws] eqn:Hs.
    + now destruct (split_not_nil c s).
    + simpl. destruct (runs is_ws w) as [h t]; simpl.
      destruct (is_ws x); simpl; [|reflexivity].
      now rewrite cons_run_app.
Qed.

Lemma tokens_by_split (c : ascii) (s : string) :
  is_ws c = true ->
  flat_map (tokens_by is_ws) (Py.split c s) = tokens_by is_ws s.
Proof.
  intros Hc. unfold tokens_by at 2. rewrite (runs_split c s Hc).
  destruct (Py.split c s) as [|w ws] eqn:Hs.
  - now destruct (split_not_nil c s).
  - simpl. unfold tokens_by at 1.
    destruct (runs is_ws w) as [h t]; simpl. now rewrite cons_run_app.
Qed.

End TokenFacts.

Lemma isspace_space : Py.isspace " " = true.
Proof. reflexivity. Qed.

(** ** The word wrap *)

Section WrapFacts.

Variable gl : string -> Q.
Variable W : Z.

Lemma fits_true (s : string) :
  fits gl W s = true <-> (gl s <= inject_Z (W - 10))%Q.
Proof. apply Qle_bool_iff. Qed.

Lemma fits_false (s : string) :
  fits gl W s = false <-> (inject_Z (W - 10) < gl s)%Q.
Proof.
  split; intros H.
  - apply Qnot_le_lt. intros H'. apply fits_true in H'. congruence.
  - destruct (fits gl W s) eqn:F; [|reflexivity].
    apply fits_true in F. now apply Qlt_not_le in H.
Qed.

Lemma test_line_join (current_line word : string) :
  (current_line ++ sep current_line) ++ word = join current_line word.
Proof.
  destruct current_line as [|c s]; [reflexivity|].
  unfold sep, join; simpl. f_equal. now rewrite append_assoc.
Qed.

Lemma extended_line_join (current_line word : string) :
  current_line ++ (sep current_line ++ word) = join current_line word.
Proof. destruct current_line; reflexivity. Qed.

Lemma wrap_step_fits (lines : list string) (current_line word : string) :
  fits gl W (join current_line word) = true ->
  wrap_step gl W (lines, current_line) word = (lines, join current_line word).
Proof.
  intros H. unfold wrap_step.
  now rewrite test_line_join, H, extended_line_join.
Qed.

Lemma wrap_step_overflow (lines : list string) (current_line word : string) :
  fits gl W (join current_line word) = false ->
  wrap_step gl W (lines, current_line) word
  = ((lines ++ [current_line])%list, word).
Proof.
  intros H. unfold wrap_step. now rewrite test_line_join, H.
Qed.

Lemma wrap_loop_cons (word : string) (words : list string) st :
  wrap_loop gl W (word :: words) st
  = wrap_loop gl W words (wrap_step gl W st word).
Proof. reflexivity. Qed.

Lemma wrap_loop_app_words (ws1 ws2 : list string) st :
  wrap_loop gl W (ws1 ++ ws2) st = wrap_loop gl W ws2 (wrap_loop gl W ws1 st).
Proof. apply fold_left_app. Qed.

(** Lines already closed are never looked at again. *)
Lemma wrap_loop_closed (words : list string) :
  forall (closed lines : list string) (current_line : string),
    wrap_loop gl W words ((closed ++ lines)%list, current_line)
    = ((closed ++ fst (wrap_loop gl W words (lines, current_line)))%list,
       snd (wrap_loop gl W words (lines, current_line))).
Proof.
  induction words as [|w ws IH]; intros closed lines cur; [reflexivity|].
  rewrite !wrap_loop_cons.
  destruct (fits gl W (join cur w)) eqn:F.
  - rewrite !wrap_step_fits by assumption. apply IH.
  - rewrite !wrap_step_overflow by assumption.
    rewrite <- app_assoc. apply IH.
Qed.

Lemma wrap_finish_closed (closed : list string) st :
  wrap_finish ((closed ++ fst st)%list, snd st)
  = (closed ++ wrap_finish st)%list.
Proof.
  destruct st as [lines cur]; simpl.
  destruct (Py.truthy cur); [now rewrite app_assoc | reflexivity].
Qed.

Lemma wrap_from_closed (closed : list string) (cur : string)
    (words : list string) :
  wrap_finish (wrap_loop gl W words (closed, cur))
  = (closed ++ wrap_finish (wrap_loop gl W words ([], cur)))%list.
Proof.
  rewrite <- (app_nil_r closed) at 1.
  rewrite wrap_loop_closed. apply wrap_finish_closed.
Qed.

Lemma wrap_greedy (words : list string) :
  forall (lines : list string) (current_line : string),
    wrap_finish (wrap_loop gl W words (lines, current_line))
    = (lines ++ greedy gl W current_line words)%list.
Proof.
  induction words as [|w ws IH]; intros lines cur.
  - simpl. destruct cur; simpl; [now rewrite app_nil_r | reflexivity].
  - rewrite wrap_loop_cons. simpl greedy.
    destruct (fits gl W (join cur w)) eqn:F.
    + rewrite wrap_step_fits by assumption. apply IH.
    + rewrite wrap_step_overflow by assumption.
      rewrite IH, <- app_assoc. reflexivity.
Qed.

End WrapFacts.

Lemma tokens_by_join (is_ws : ascii -> bool) (line tok : string) :
  is_ws " "%char = true ->
  tokens_by is_ws (join line tok)
  = (tokens_by is_ws line ++ tokens_by is_ws tok)%list.
Proof.
  intros Hsp. destruct line as [|c s]; [reflexivity|].
  unfold join. change (" " ++ tok) with (String " " tok).
  now apply tokens_by_append_ws.
Qed.

Lemma tokens_by_greedy (is_ws : ascii -> bool) gl W (words : list string) :
  is_ws " "%char = true ->
  forall line,
    flat_map (tokens_by is_ws) (greedy gl W line words)
    = (tokens_by is_ws line ++ flat_map (tokens_by is_ws) words)%list.
Proof.
  intros Hsp. induction words as [|w ws IH]; intros line.
  - destruct line; simpl; [reflexivity | now rewrite !app_nil_r].
  - simpl. destruct (fits gl W (join line w)).
    + rewrite IH, tokens_by_join by assumption. now rewrite app_assoc.
    + simpl. now rewrite IH.
Qed.

Lemma greedy_lines_fit gl W (words : list string) :
  forall line,
    line = "" \/ fits gl W line = true ->
    (forall w, In w words -> fits gl W w = true) ->
    forall l, In l (greedy gl W line words) -> fits gl W l = true.
Proof.
  induction words as [|w ws IH]; intros line Hline Hws l Hl.
  - destruct line; simpl in Hl; [contradiction|].
    destruct Hl as [<-|[]]. destruct Hline; [discriminate | assumption].
  - simpl in Hl. destruct (fits gl W (join line w)) eqn:F.
    + apply (IH (join line w)); auto. intros; apply Hws; now right.
    + destruct Hl as [<-|Hl].
      * destruct Hline as [->|]; [|assumption].
        simpl in F. rewrite (Hws w) in F; [discriminate | now left].
      * apply (IH w); auto.
        -- right. apply Hws. now left.
        -- intros; apply Hws; now right.
Qed.

Lemma monospaced_monotone (px : Z) : 0 <= px -> monotone (monospaced px).
Proof.
  intros Hpx a b. unfold monospaced.
  rewrite <- !Zle_Qle, length_append, Nat2Z.inj_add. split; nia.
Qed.

Lemma wide_stays_wide_left gl W (line w : string) :
  monotone gl ->
  (inject_Z (W - 10) < gl w)%Q ->
  fits gl W (join line w) = false.
Proof.
  intros Hm Hw. apply fits_false. eapply Qlt_le_trans; [exact Hw|].
  destruct line as [|c s]; [apply Qle_refl|].
  unfold join. eapply Qle_trans.
  - apply (proj2 (Hm " " w)).
  - apply (proj2 (Hm (String c s) (" " ++ w))).
Qed.

Lemma wide_stays_wide_right gl W (w word : string) :
  monotone gl ->
  w <> "" ->
  (inject_Z (W - 10) < gl w)%Q ->
  fits gl W (join w word) = false.
Proof.
  intros Hm Hne Hw. apply fits_false. eapply Qlt_le_trans; [exact Hw|].
  destruct w as [|c s]; [congruence|].
  unfold join. apply (proj1 (Hm (String c s) (" " ++ word))).
Qed.

(** ** The claims on the word wrap *)

(** C2, as the claim words it, fails: with tokens split on whitespace and
    joined by single spaces, the text [a  b] (two spaces) would wrap to the
    line [a b], and the program keeps both spaces. *)
Lemma wrap_lines_keeps_double_space :
  wrap_lines (monospaced 6) 240 "a  b" = ["a  b"]
  /\ spec_wrap (monospaced 6) 240 "a  b" = ["a b"]
  /\ wrap_lines (monospaced 6) 240 "a  b" <> spec_wrap (monospaced 6) 240 "a  b".
Proof. repeat split. vm_compute. discriminate. Qed.

(** C2, amended.  For every input string the wrap builds its lines greedily
    from the pieces obtained by cutting the input at every single space
    character: a piece joins the current line, after one space when that
    line is not empty, as long as the measure of the line so obtained does
    not exceed the draw width minus 10; otherwise the current line is
    appended to the output and a new line begins with the piece that did
    not fit; the last line is appended when it is not empty. *)
Theorem wrap_lines_greedy_on_single_spaces (gl : string -> Q) (W : Z) (text : string) :
  wrap_lines gl W text = greedy gl W "" (Py.split " " text).
Proof. unfold wrap_lines, wrap_words. now rewrite wrap_greedy. Qed.

(** C3, as the claim words it, fails for a token that a tab joins to its
    neighbour: the wrap cuts at spaces only, the wide token is no line of
    the output, and it shares its line with the word before it. *)
Lemma tab_joined_wide_token_not_alone :
  let text := "so" ++ String TAB "incomprehensibilities" in
  In "incomprehensibilities" (split_whitespace text)
  /\ (inject_Z (250 - 10) < monospaced 12 "incomprehensibilities")%Q
  /\ ~ In "incomprehensibilities" (wrap_lines (monospaced 12) 250 text)
  /\ wrap_lines (monospaced 12) 250 text
     = [""; "so" ++ String TAB "incomprehensibilities"].
Proof.
  repeat split.
  - right. now left.
  - intros [H|[H|[]]]; discriminate H.
Qed.

(** C3, amended.  For every input in which a non-empty piece between single
    space characters measures wider than the usable width, under a font
    whose measure never shrinks when text is added, the wrap ends (it is a
    total function), never cuts that piece and puts it alone on its line:
    the output is the lines of the pieces before it, closed, then the
    piece itself, then the lines of the pieces after it. *)
Theorem wide_token_own_line (gl : string -> Q) (W : Z) (text : string)
    (before : list string) (w : string) (after : list string) :
  monotone gl ->
  Py.split " " text = (before ++ w :: after)%list ->
  w <> "" ->
  (inject_Z (W - 10) < gl w)%Q ->
  wrap_lines gl W text
  = (fst (wrap_loop gl W before ([], ""))
     ++ [snd (wrap_loop gl W before ([], ""))]
     ++ [w]
     ++ match after with
        | [] => []
        | next :: rest => wrap_finish (wrap_loop gl W rest ([], next))
        end)%list.
Proof.
  intros Hm Hsplit Hne Hw. unfold wrap_lines, wrap_words.
  rewrite Hsplit, wrap_loop_app_words, wrap_loop_cons.
  destruct (wrap_loop gl W before ([], "")) as [lines cur]; simpl fst; simpl snd.
  rewrite wrap_step_overflow by now apply wide_stays_wide_left.
  destruct after as [|next rest].
  - simpl. destruct w; [congruence|]. simpl. now rewrite <- app_assoc.
  - rewrite wrap_loop_cons.
    rewrite wrap_step_overflow by now apply wide_stays_wide_right.
    rewrite wrap_from_closed. now rewrite <- !app_assoc.
Qed.

Lemma wide_token_own_line_witness :
  wrap_lines (monospaced 6) 40 "hi incomprehensible yo"
  = ["hi"; "incomprehensible"; "yo"].
Proof.
  apply (wide_token_own_line (monospaced 6) 40 "hi incomprehensible yo"
           ["hi"] "incomprehensible" ["yo"]).
  - apply monospaced_monotone. lia.
  - reflexivity.
  - discriminate.
  - vm_compute. reflexivity.
Defined.

(** C5.  For every input string, the whitespace tokens of the produced
    lines, taken in order, are the whitespace tokens of the input. *)
Theorem wrap_lines_keep_tokens (gl : string -> Q) (W : Z) (text : string) :
  flat_map split_whitespace (wrap_lines gl W text) = split_whitespace text.
Proof.
  unfold wrap_lines, wrap_words. rewrite wrap_greedy. simpl app.
  unfold split_whitespace.
  rewrite (tokens_by_greedy _ gl W _ isspace_space "").
  simpl. apply tokens_by_split, isspace_space.
Qed.

(** C6, as the claim words it, fails: in a message of two lines, each
    whitespace token fits the usable width, and the program, which cuts at
    spaces only, lays both out as one line that is too wide. *)
Lemma line_break_joins_words_too_wide :
  let text := "congratulations," ++ String LF "darling" in
  (forall tok, In tok (split_whitespace text) ->
               (monospaced 12 tok <= inject_Z (250 - 10))%Q)
  /\ exists line, In line (wrap_lines (monospaced 12) 250 text)
                  /\ ~ (monospaced 12 line <= inject_Z (250 - 10))%Q.
Proof.
  split.
  - intros tok [<-|[<-|[]]]; vm_compute; discriminate.
  - exists ("congratulations," ++ String LF "darling"). split.
    + vm_compute. right. now left.
    + vm_compute. intros H. now apply H.
Qed.

(** C6, amended.  For every input string in which no piece between single
    space characters measures wider than the usable width, every line
    produced by the wrap measures at most the usable width. *)
Theorem lines_fit_when_words_fit (gl : string -> Q) (W : Z) (text : string) :
  (forall word, In word (Py.split " " text) ->
                (gl word <= inject_Z (W - 10))%Q) ->
  forall line, In line (wrap_lines gl W text) ->
               (gl line <= inject_Z (W - 10))%Q.
Proof.
  intros Hwords line Hline. apply fits_true.
  unfold wrap_lines, wrap_words in Hline. rewrite wrap_greedy in Hline.
  simpl app in Hline.
  apply (greedy_lines_fit gl W (Py.split " " text) ""); auto.
  intros w Hw. apply fits_true. now apply Hwords.
Qed.

Lemma lines_fit_when_words_fit_witness :
  (monospaced 6 "Hello world this is a jewelry box test" <= inject_Z (240 - 10))%Q.
Proof.
  apply (lines_fit_when_words_fit (monospaced 6) 240
           "Hello world this is a jewelry box test message").
  - intros word Hw. vm_compute in Hw.
    repeat (destruct Hw as [<-|Hw]; [vm_compute; discriminate|]).
    contradiction.
  - vm_compute. now left.
Defined.

(** C10.  When the wrap meets a word wider than the usable width while the
    current line is empty, as it is for the first word of the input, it
    appends the empty string to the output as a line and starts a line with
    that word: the output holds an empty line. *)
Theorem empty_line_before_wide_token (gl : string -> Q) (W : Z) (text : string)
    (before : list string) (w : string) (after lines : list string) :
  Py.split " " text = (before ++ w :: after)%list ->
  wrap_loop gl W before ([], "") = (lines, "") ->
  (inject_Z (W - 10) < gl w)%Q ->
  wrap_step gl W (lines, "") w = ((lines ++ [""])%list, w)
  /\ wrap_lines gl W text
     = (lines ++ "" :: wrap_finish (wrap_loop gl W after ([], w)))%list.
Proof.
  intros Hsplit Hbefore Hw.
  assert (Hstep : wrap_step gl W (lines, "") w = ((lines ++ [""])%list, w)).
  { apply wrap_step_overflow. now apply fits_false. }
  split; [exact Hstep|].
  unfold wrap_lines, wrap_words.
  rewrite Hsplit, wrap_loop_app_words, Hbefore, wrap_loop_cons, Hstep.
  rewrite wrap_from_closed. now rewrite <- app_assoc.
Qed.

Lemma empty_line_before_wide_token_witness :
  wrap_step (monospaced 6) 40 ([], "") "incomprehensible"
  = ([""], "incomprehensible")
  /\ wrap_lines (monospaced 6) 40 "incomprehensible yo"
     = [""; "incomprehensible"; "yo"].
Proof.
  apply (empty_line_before_wide_token (monospaced 6) 40 "incomprehensible yo"
           [] "incomprehensible" ["yo"] []).
  - reflexivity.
  - reflexivity.
  - vm_compute. reflexivity.
Defined.

(** ** Runs of the handlers *)

Section Runs.

Variable E : env.

Lemma bind_run {A B} (m : M A) (k : A -> M B) (w : world) :
  bind m k w = match m w with
               | (Return a, w') => k a w'
               | (Raise e, w') => (Raise e, w')
               end.
Proof. reflexivity. Qed.

Lemma same_surface_refl (w : world) : same_surface w w.
Proof. repeat split. Qed.

Lemma same_surface_trans (w1 w2 w3 : world) :
  same_surface w1 w2 -> same_surface w2 w3 -> same_surface w1 w3.
Proof.
  intros (a1 & a2 & a3 & a4 & a5) (b1 & b2 & b3 & b4 & b5).
  repeat split; congruence.
Qed.

Lemma quiet_ret {A} (a : A) : quiet (ret a).
Proof. intros w. apply same_surface_refl. Qed.

Lemma quiet_bind {A B} (m : M A) (k : A -> M B) :
  quiet m -> (forall a, quiet (k a)) -> quiet (bind m k).
Proof.
  intros Hm Hk w. rewrite bind_run. specialize (Hm w).
  destruct (m w) as [[a|e] w1]; simpl in *; [|assumption].
  eapply same_surface_trans; [exact Hm | apply Hk].
Qed.

Lemma quiet_invoke (c : call) : is_sink c = false -> quiet (invoke E c).
Proof.
  intros Hc w. unfold invoke, same_surface; simpl. rewrite Hc.
  destruct c; try discriminate Hc;
    match goal with |- context [raises E ?t ?c] => destruct (raises E t c) end;
    repeat split.
Qed.

Create HintDb quiet.

#[local] Hint Resolve quiet_ret quiet_bind quiet_invoke : quiet.

Lemma quiet_new_image size bg : quiet (new_image E size bg).
Proof. unfold new_image. auto with quiet. Qed.

Lemma quiet_measure f s : quiet (measure E f s).
Proof. unfold measure. auto with quiet. Qed.

Lemma quiet_text img xy line f : quiet (text E img xy line f).
Proof. unfold text. auto with quiet. Qed.

Lemma quiet_rotate img angle : quiet (rotate E img angle).
Proof. unfold rotate. auto with quiet. Qed.

Lemma quiet_getbuffer img : quiet (getbuffer E img).
Proof. unfold getbuffer. auto with quiet. Qed.

#[local] Hint Resolve quiet_new_image quiet_measure quiet_text quiet_rotate
  quiet_getbuffer : quiet.

Lemma quiet_wrap_loop_m f W (words : list string) :
  forall st, quiet (wrap_loop_m E f W words st).
Proof.
  induction words as [|word rest IH]; intros [lines cur]; simpl.
  - auto with quiet.
  - apply quiet_bind; [auto with quiet|].
    intros len. destruct (Qle_bool len _); apply IH.
Qed.

Lemma quiet_draw_loop f dh lh (lines : list string) :
  forall y img, quiet (draw_loop E f dh lh lines y img).
Proof.
  induction lines as [|line rest IH]; intros y img; simpl.
  - auto with quiet.
  - destruct (y + lh >? dh - 5); [auto with quiet|].
    apply quiet_bind; [auto with quiet|]. intros img'. apply IH.
Qed.

#[local] Hint Resolve quiet_wrap_loop_m quiet_draw_loop : quiet.

Lemma quiet_compose message font_size : quiet (compose E message font_size).
Proof.
  unfold compose.
  repeat (apply quiet_bind; [auto with quiet | intros ?]).
  auto with quiet.
Qed.

(** The outcome of a quiet computation, for case analysis. *)
Lemma quiet_cases {A} (m : M A) (w : world) :
  quiet m ->
  exists r w1, m w = (r, w1) /\ same_surface w w1.
Proof.
  intros Hq. specialize (Hq w). destruct (m w) as [r w1].
  now exists r, w1.
Qed.

Ltac close_cycle :=
  repeat split; simpl; rewrite <- ?app_assoc; simpl;
  try reflexivity; try (now constructor); repeat constructor.

Lemma display_message_cycle (message : string) (font_size : Z) (w : world) :
  exists w' new err infos,
    display_message E message font_size w = (Return tt, w')
    /\ sink w' = (sink w ++ new)%list
    /\ cycle (power_state w) new (power_state w') err
    /\ replies w' = replies w
    /\ running w' = running w
    /\ Forall (fun x => fst x = INFO) infos
    /\ log w' = (log w ++ infos
                 ++ match err with
                    | Some e => [(ERROR, ("Error displaying message: " ++ e)%string)]
                    | None => []
                    end)%list.
Proof.
  unfold display_message, try_except. rewrite bind_run.
  unfold invoke at 1.
  destruct (raises E (clock w) epd_init) as [e|] eqn:R0.
  { eexists _, _, (Some e), []. split; [reflexivity|]. simpl.
    close_cycle. }
  rewrite bind_run.
  match goal with |- context [compose E ?m ?f ?w0] =>
    destruct (quiet_cases (compose E m f) w0 (quiet_compose m f))
      as (r1 & w1 & -> & S1) end.
  destruct S1 as (Hs1 & Hp1 & Hr1 & Hl1 & Hg1); simpl in Hs1, Hp1, Hr1, Hl1, Hg1.
  destruct r1 as [planes|e].
  2:{ eexists _, _, (Some e), []. split; [reflexivity|]. simpl.
      rewrite Hs1, Hp1, Hr1, Hl1, Hg1.
      close_cycle. }
  rewrite bind_run.
  destruct (quiet_cases _ w1 (quiet_getbuffer (fst planes)))
    as (r2 & w2 & -> & Hs2 & Hp2 & Hr2 & Hl2 & Hg2).
  destruct r2 as [bb|e].
  2:{ eexists _, _, (Some e), []. split; [reflexivity|]. simpl.
      rewrite Hs2, Hp2, Hr2, Hl2, Hg2, Hs1, Hp1, Hr1, Hl1, Hg1.
      close_cycle. }
  rewrite bind_run.
  destruct (quiet_cases _ w2 (quiet_getbuffer (snd planes)))
    as (r3 & w3 & -> & Hs3 & Hp3 & Hr3 & Hl3 & Hg3).
  destruct r3 as [br|e].
  2:{ eexists _, _, (Some e), []. split; [reflexivity|]. simpl.
      rewrite Hs3, Hp3, Hr3, Hl3, Hg3, Hs2, Hp2, Hr2, Hl2, Hg2,
        Hs1, Hp1, Hr1, Hl1, Hg1.
      close_cycle. }
  rewrite bind_run. unfold invoke at 1.
  destruct (raises E (clock w3) (epd_display bb br)) as [e|] eqn:R4.
  { eexists _, _, (Some e), []. split; [reflexivity|]. simpl.
    rewrite Hs3, Hp3, Hr3, Hl3, Hg3, Hs2, Hp2, Hr2, Hl2, Hg2,
      Hs1, Hp1, Hr1, Hl1, Hg1.
    close_cycle. }
  rewrite bind_run. unfold logging at 1. rewrite bind_run. unfold invoke at 1.
  cbn [clock].
  destruct (raises E (S (clock w3)) epd_sleep) as [e|] eqn:R5.
  { eexists _, _, (Some e), [(INFO, "Message sent to display.")].
    split; [reflexivity|]. simpl.
    rewrite Hs3, Hp3, Hr3, Hl3, Hg3, Hs2, Hp2, Hr2, Hl2, Hg2,
      Hs1, Hp1, Hr1, Hl1, Hg1.
    close_cycle. }
  eexists _, _, None,
    [(INFO, "Message sent to display.");
     (INFO, "Display put to sleep after update.")].
  split; [reflexivity|]. simpl.
  rewrite Hs3, Hr3, Hl3, Hg3, Hs2, Hr2, Hl2, Hg2, Hs1, Hr1, Hl1, Hg1.
  close_cycle.
Qed.

Lemma unauthorized_test (u : update) :
  effective_user_id u <> CHAT_ID E ->
  negb (effective_user_id u =? CHAT_ID E) = true.
Proof. intros H. now apply negb_true_iff, Z.eqb_neq. Qed.

Lemma authorized_test (u : update) :
  effective_user_id u = CHAT_ID E ->
  negb (effective_user_id u =? CHAT_ID E) = false.
Proof. intros H. now apply negb_false_iff, Z.eqb_eq. Qed.

Lemma clear_command_cycle (u : update) (w : world) :
  effective_user_id u = CHAT_ID E ->
  exists w' new err,
    clear_command E u w = (Return tt, w')
    /\ sink w' = (sink w ++ new)%list
    /\ cycle (power_state w) new (power_state w') err
    /\ running w' = running w
    /\ replies w'
       = (replies w
          ++ [match err with
              | Some e => ("Error clearing display: " ++ e)%string
              | None => "E-paper display cleared!"
              end])%list.
Proof.
  intros Hu. unfold clear_command.
  rewrite bind_run. unfold logging at 1.
  rewrite (authorized_test u Hu).
  unfold try_except. rewrite bind_run. unfold invoke at 1. cbn [clock].
  destruct (raises E (clock w) epd_init) as [e|] eqn:R0.
  { eexists _, _, (Some e). split; [reflexivity|]. close_cycle. }
  rewrite bind_run. unfold invoke at 1. cbn [clock].
  destruct (raises E (S (clock w)) epd_Clear) as [e|] eqn:R1.
  { eexists _, _, (Some e). split; [reflexivity|]. close_cycle. }
  rewrite bind_run. unfold invoke at 1. cbn [clock].
  destruct (raises E (S (S (clock w))) epd_sleep) as [e|] eqn:R2.
  { eexists _, _, (Some e). split; [reflexivity|]. close_cycle. }
  eexists _, _, None. split; [reflexivity|]. close_cycle.
Qed.

End Runs.

Lemma cycle_sleeps (p0 p : power) (new : list entry) (err : option string) :
  cycle p0 new p err -> sleeps_after_completed_paint new p.
Proof.
  intros H. unfold sleeps_after_completed_paint.
  destruct H as [e|e|c e Hc|c e Hc|c Hc]; (split; [|split]).
  all: try (unfold completed_paint; simpl; rewrite ?Hc; reflexivity).
  all: try (intros c0 e0 Hc0 Hin; simpl in Hin).
  all: try (intros Hin; simpl in Hin).
  all: repeat match goal with
         | H : _ \/ _ |- _ => destruct H
         | H : False |- _ => destruct H
         | H : (_, _) = (_, _) |- _ => inversion H; clear H; subst
         end.
  all: try reflexivity; try discriminate; try congruence.
  all: split; [destruct c0; try discriminate; reflexivity | reflexivity].
Qed.

(** Whenever the measuring loop returns, it returns the wrap computed with
    the measure of the font: a measurement either raises or answers. *)
Lemma wrap_loop_m_returned (E : env) f W (words : list string) :
  forall st w st' w',
    wrap_loop_m E f W words st w = (Return st', w') ->
    st' = wrap_loop (getlength E f) W words st.
Proof.
  induction words as [|word rest IH]; intros [lines cur] w st' w' Hrun.
  - simpl in Hrun. unfold ret in Hrun. now inversion Hrun.
  - simpl in Hrun. rewrite bind_run in Hrun.
    unfold measure in Hrun. rewrite bind_run in Hrun. unfold invoke in Hrun.
    destruct (raises E (clock w) (font_getlength f _)); [discriminate Hrun|].
    unfold ret in Hrun. simpl wrap_loop. unfold wrap_step, fits.
    destruct (Qle_bool _ _); now apply IH in Hrun.
Qed.

(** ** Runs in which no collaborator raises *)

Section Healthy.

Variable E : env.
Hypothesis healthy_env : forall t c, raises E t c = None.

Lemma returns_ret {A} (a : A) (P : A -> Prop) : P a -> returns (ret a) P.
Proof. intros H w. exists a, w. repeat split. exact H. Qed.

Lemma returns_bind {A B} (m : M A) (k : A -> M B) (P : A -> Prop) (Q : B -> Prop) :
  returns m P -> (forall a, P a -> returns (k a) Q) -> returns (bind m k) Q.
Proof.
  intros Hm Hk w. rewrite bind_run.
  destruct (Hm w) as (a & w1 & -> & S1 & Ha).
  destruct (Hk a Ha w1) as (b & w2 & -> & S2 & Hb).
  exists b, w2. split; [reflexivity|]. split; [|exact Hb].
  eapply same_surface_trans; eassumption.
Qed.

Lemma returns_invoke (c : call) :
  is_sink c = false -> returns (invoke E c) (fun _ => True).
Proof.
  intros Hc w. unfold invoke. rewrite healthy_env, Hc.
  eexists tt, _. split; [reflexivity|]. split; [|exact I].
  destruct c; try discriminate Hc; repeat split.
Qed.

Lemma returns_new_image size bg :
  returns (new_image E size bg) (fun img => img_text img = []).
Proof.
  unfold new_image. eapply returns_bind; [now apply returns_invoke|].
  intros _ _. now apply returns_ret.
Qed.

Lemma returns_rotate img angle :
  returns (rotate E img angle) (fun img' => img_text img' = img_text img).
Proof.
  unfold rotate. eapply returns_bind; [now apply returns_invoke|].
  intros _ _. now apply returns_ret.
Qed.

Lemma returns_getbuffer img :
  returns (getbuffer E img) (fun img' => img' = img).
Proof.
  unfold getbuffer. eapply returns_bind; [now apply returns_invoke|].
  intros _ _. now apply returns_ret.
Qed.

Lemma returns_measure f s :
  returns (measure E f s) (fun len => len = getlength E f s).
Proof.
  unfold measure. eapply returns_bind; [now apply returns_invoke|].
  intros _ _. now apply returns_ret.
Qed.

Lemma returns_text img xy line f :
  returns (text E img xy line f)
          (fun img' =>
             img_text img' = (img_text img ++ [(fst xy, snd xy, line, f)])%list).
Proof.
  unfold text. eapply returns_bind; [now apply returns_invoke|].
  intros _ _. now apply returns_ret.
Qed.

(** Measured by a font that answers, the loop is the wrap of the page. *)
Lemma returns_wrap_loop_m f W (words : list string) :
  forall st,
    returns (wrap_loop_m E f W words st)
            (fun st' => st' = wrap_loop (getlength E f) W words st).
Proof.
  induction words as [|word rest IH]; intros [lines cur]; simpl.
  - now apply returns_ret.
  - eapply returns_bind; [apply returns_measure|].
    intros len ->. unfold fits.
      destruct (Qle_bool _ _); apply IH.
Qed.

(** The drawing stops at the first line that would pass the bottom margin. *)
Lemma returns_draw_loop f dh lh (lines : list string) :
  forall (N : nat) y img,
    y + Z.of_nat N * lh <= dh - 5 < y + (Z.of_nat N + 1) * lh ->
    returns (draw_loop E f dh lh lines y img)
            (fun img' =>
               img_text img' = (img_text img ++ placed f lh y (firstn N lines))%list).
Proof.
  induction lines as [|line rest IH]; intros N y img HN.
  - simpl. apply returns_ret. rewrite firstn_nil. simpl. now rewrite app_nil_r.
  - simpl. destruct N as [|n].
    + replace (y + lh >? dh - 5) with true by (symmetry; apply Z.gtb_lt; lia).
      apply returns_ret. simpl. now rewrite app_nil_r.
    + replace (y + lh >? dh - 5) with false
        by (symmetry; rewrite Z.gtb_ltb; apply Z.ltb_ge; nia).
      eapply returns_bind; [apply returns_text|].
      intros img' Himg' w.
      destruct (IH n (y + lh) img' ltac:(lia) w) as (a & w' & Hrun & S & Ha).
      exists a, w'. split; [exact Hrun|]. split; [exact S|].
      rewrite Ha, Himg'. simpl. now rewrite <- app_assoc.
Qed.

Lemma returns_compose (message : string) (font_size : Z) (N : nat) :
  Z.of_nat N * (font_size + 2) <= EPD_WIDTH E - 10
    < (Z.of_nat N + 1) * (font_size + 2) ->
  returns (compose E message font_size)
    (fun planes =>
       img_text (fst planes)
       = placed (select_font font_size) (font_size + 2) 5
           (firstn N (wrap_lines (getlength E (select_font font_size))
                        (EPD_HEIGHT E) message))
       /\ img_text (snd planes) = []).
Proof.
  intros HN. unfold compose.
  eapply returns_bind; [apply returns_new_image|]. intros black Hblack.
  eapply returns_bind; [apply returns_new_image|]. intros red Hred.
  eapply returns_bind; [now apply returns_invoke|]. intros _ _.
  eapply returns_bind; [now apply returns_invoke|]. intros _ _.
  cbv zeta.
  eapply returns_bind; [apply returns_wrap_loop_m|]. intros st ->.
  eapply returns_bind; [apply (returns_draw_loop _ _ _ _ N); lia|].
  intros black' Hblack'.
  eapply returns_bind; [apply returns_rotate|]. intros black'' Hblack''.
  eapply returns_bind; [apply returns_rotate|]. intros red' Hred'.
  apply returns_ret. simpl. split.
  - rewrite Hblack'', Hblack', Hblack. reflexivity.
  - now rewrite Hred'.
Qed.

Lemma display_message_healthy (message : string) (font_size : Z) (N : nat)
    (w : world) :
  Z.of_nat N * (font_size + 2) <= EPD_WIDTH E - 10
    < (Z.of_nat N + 1) * (font_size + 2) ->
  exists w' black red,
    display_message E message font_size w = (Return tt, w')
    /\ sink w' = (sink w ++ [(epd_init, None);
                             (epd_display black red, None);
                             (epd_sleep, None)])%list
    /\ img_text black
       = placed (select_font font_size) (font_size + 2) 5
           (firstn N (wrap_lines (getlength E (select_font font_size))
                        (EPD_HEIGHT E) message))
    /\ img_text red = []
    /\ power_state w' = Asleep
    /\ replies w' = replies w
    /\ log w' = (log w ++ [(INFO, "Message sent to display.");
                           (INFO, "Display put to sleep after update.")])%list.
Proof.
  intros HN. unfold display_message, try_except.
  rewrite bind_run. unfold invoke at 1. rewrite healthy_env.
  rewrite bind_run.
  match goal with |- context [compose E message font_size ?w0] =>
    destruct (returns_compose message font_size N HN w0)
      as (planes & w1 & -> & (Hs1 & Hp1 & Hr1 & Hl1 & Hg1) & Hblack & Hred)
  end.
  simpl in Hs1, Hp1, Hr1, Hl1, Hg1.
  rewrite bind_run.
  destruct (returns_getbuffer (fst planes) w1)
    as (bb & w2 & -> & (Hs2 & Hp2 & Hr2 & Hl2 & Hg2) & ->).
  rewrite bind_run.
  destruct (returns_getbuffer (snd planes) w2)
    as (br & w3 & -> & (Hs3 & Hp3 & Hr3 & Hl3 & Hg3) & ->).
  rewrite bind_run. unfold invoke at 1. rewrite healthy_env.
  rewrite bind_run. unfold logging at 1.
  rewrite bind_run. unfold invoke at 1. rewrite healthy_env.
  eexists _, (fst planes), (snd planes). split; [reflexivity|]. simpl.
  rewrite Hs3, Hr3, Hl3, Hs2, Hr2, Hl2, Hs1, Hr1, Hl1.
  rewrite <- !app_assoc. repeat split; assumption.
Qed.

End Healthy.

Lemma placed_lines (f : font) (lh : Z) (lines : list string) :
  forall y, map (fun d => snd (fst d)) (placed f lh y lines) = lines.
Proof.
  induction lines as [|line rest IH]; intros y; simpl; [reflexivity|].
  now rewrite IH.
Qed.

Lemma handle_message_authorized (E : env) (u : update) (w : world) :
  effective_user_id u = CHAT_ID E ->
  exists w' new err,
    handle_message E u w = (Return tt, w')
    /\ sink w' = (sink w ++ new)%list
    /\ cycle (power_state w) new (power_state w') err
    /\ running w' = running w
    /\ replies w' = (replies w ++ ["Message sent to e-paper display!"])%list.
Proof.
  intros Hu. unfold handle_message.
  rewrite bind_run. unfold logging at 1.
  rewrite (authorized_test E u Hu). rewrite bind_run.
  match goal with |- context [display_message E ?m ?f ?w0] =>
    destruct (display_message_cycle E m f w0)
      as (w1 & new & err & infos & -> & Hs & Hc & Hr & Hg & _ & _)
  end.
  simpl in Hs, Hc, Hr, Hg.
  eexists _, new, err. split; [reflexivity|]. simpl.
  rewrite Hr, Hg. repeat split; assumption.
Qed.

Lemma rejected (E : env) (k : kind) (u : update) (w : world) :
  effective_user_id u <> CHAT_ID E ->
  exists w',
    handler E k u w = (Return tt, w')
    /\ replies w' = (replies w ++ [rejection k])%list
    /\ sink w' = sink w
    /\ power_state w' = power_state w
    /\ running w' = running w
    /\ clock w' = clock w.
Proof.
  intros Hu.
  destruct k; simpl;
    unfold start_command, clear_command, shutdown_command, handle_message;
    rewrite bind_run; unfold logging at 1;
    rewrite (unauthorized_test E u Hu);
    eexists; (split; [reflexivity|]); simpl; repeat split.
Qed.

(** On a transport that delivers, every update that reaches a handler is
    answered exactly once. *)
Lemma every_event_one_reply (E : env) (k : kind) (u : update) (w : world) :
  exists w' msg,
    handler E k u w = (Return tt, w')
    /\ replies w' = (replies w ++ [msg])%list.
Proof.
  destruct (Z.eq_dec (effective_user_id u) (CHAT_ID E)) as [Hu|Hu].
  2:{ destruct (rejected E k u w Hu) as (w' & Hrun & Hr & _).
      now exists w', (rejection k). }
  destruct k; simpl.
  - unfold start_command. rewrite bind_run. unfold logging at 1.
    rewrite (authorized_test E u Hu).
    eexists _, _. split; reflexivity.
  - destruct (clear_command_cycle E u w Hu) as (w' & new & err & Hrun & _ & _ & _ & Hr).
    eexists w', _. split; eassumption.
  - unfold shutdown_command. rewrite bind_run. unfold logging at 1.
    rewrite (authorized_test E u Hu).
    eexists _, _. split; reflexivity.
  - destruct (handle_message_authorized E u w Hu) as (w' & new & err & Hrun & _ & _ & _ & Hr).
    eexists w', _. split; eassumption.
Qed.

(** ** The claims on the display cycle and the replies *)

(** C1, as the claim words it, fails: when the paint or the clear raises,
    no sleep call follows it and the panel stays awake. *)
Lemma failed_paint_leaves_panel_awake :
  let shown := snd (display_message (panel paint_fails) "hi" 24 boot) in
  let wiped := snd (clear_command (panel clear_fails) (owner "/clear") boot) in
  (followed_by_sleep attempted_paint (sink shown) = false
   /\ existsb is_sleep (sink shown) = false
   /\ power_state shown = Active)
  /\ (followed_by_sleep attempted_paint (sink wiped) = false
      /\ existsb is_sleep (sink wiped) = false
      /\ power_state wiped = Active).
Proof. vm_compute. repeat split. Qed.

(** C1, amended.  In every message-display operation and every clear
    operation, a sleep call is issued on the sink right after the paint or
    the clear whenever that call returns, and the sink is asleep once that
    sleep call has returned; when the paint or the clear raises, no sleep
    call is issued. *)
Theorem sleep_follows_completed_paint (E : env) (message : string)
    (font_size : Z) (u : update) (w : world) :
  (exists new,
     sink (snd (display_message E message font_size w)) = (sink w ++ new)%list
     /\ sleeps_after_completed_paint new
          (power_state (snd (display_message E message font_size w))))
  /\ (exists new,
        sink (snd (clear_command E u w)) = (sink w ++ new)%list
        /\ sleeps_after_completed_paint new
             (power_state (snd (clear_command E u w)))).
Proof.
  split.
  - destruct (display_message_cycle E message font_size w)
      as (w' & new & err & infos & -> & Hs & Hc & _).
    exists new. split; [exact Hs|]. now apply cycle_sleeps in Hc.
  - destruct (Z.eq_dec (effective_user_id u) (CHAT_ID E)) as [Hu|Hu].
    + destruct (clear_command_cycle E u w Hu)
        as (w' & new & err & -> & Hs & Hc & _).
      exists new. split; [exact Hs|]. now apply cycle_sleeps in Hc.
    + destruct (rejected E clear u w Hu) as (w' & Hrun & _ & Hs & Hp & _).
      simpl in Hrun. rewrite Hrun. exists []. simpl.
      rewrite app_nil_r. split; [exact Hs|].
      repeat split; simpl; intros; contradiction.
Qed.

(** C4.  When the collaborators do not raise, a message whose wrap gives
    more than [N] lines, shown on a page whose usable height takes exactly
    [N] lines, is painted with the first [N] lines of its wrap and no
    other, each one line height under the last; the cycle ends normally
    and logs no error. *)
Theorem truncation_keeps_first_lines (E : env) (message : string)
    (font_size : Z) (N : nat) (w : world) :
  let lines :=
    wrap_lines (getlength E (select_font font_size)) (EPD_HEIGHT E) message in
  let line_height := font_size + 2 in
  let usable_height := EPD_WIDTH E - 10 in
  (forall t c, raises E t c = None) ->
  Z.of_nat N * line_height <= usable_height < (Z.of_nat N + 1) * line_height ->
  (N < List.length lines)%nat ->
  exists w' black red,
    display_message E message font_size w = (Return tt, w')
    /\ sink w' = (sink w ++ [(epd_init, None);
                             (epd_display black red, None);
                             (epd_sleep, None)])%list
    /\ img_text black
       = placed (select_font font_size) line_height 5 (firstn N lines)
    /\ map (fun d => snd (fst d)) (img_text black) = firstn N lines
    /\ List.length (img_text black) = N
    /\ img_text red = []
    /\ log w' = (log w ++ [(INFO, "Message sent to display.");
                           (INFO, "Display put to sleep after update.")])%list.
Proof.
  intros lines line_height usable_height Hhealthy HN HM.
  destruct (display_message_healthy E Hhealthy message font_size N w HN)
    as (w' & black & red & Hrun & Hs & Hb & Hr & _ & _ & Hl).
  exists w', black, red. fold lines line_height in Hb.
  assert (Hmap : map (fun d => snd (fst d)) (img_text black) = firstn N lines).
  { rewrite Hb. apply placed_lines. }
  repeat split; try assumption.
  rewrite <- (length_map (fun d => snd (fst d))), Hmap.
  apply firstn_length_le. lia.
Qed.

Lemma truncation_keeps_first_lines_witness :
  exists w' black red,
    display_message (panel healthy)
      "Hello world this is a jewelry box test message that is far too long for the small panel"
      24 boot = (Return tt, w')
    /\ sink w' = [(epd_init, None); (epd_display black red, None);
                  (epd_sleep, None)]
    /\ map (fun d => snd (fst d)) (img_text black)
       = ["Hello world this is"; "a jewelry box test"; "message that is far";
          "too long for the"]
    /\ List.length (img_text black) = 4%nat.
Proof.
  destruct (truncation_keeps_first_lines (panel healthy)
              "Hello world this is a jewelry box test message that is far too long for the small panel"
              24 4 boot)
    as (w' & black & red & Hrun & Hs & _ & Hmap & Hlen & _).
  - intros t c. reflexivity.
  - simpl. lia.
  - vm_compute. lia.
  - exists w', black, red. repeat split; assumption.
Defined.








(** C8 at a failing paint: the owner's message is answered with the
    acknowledgment of success although the paint raised; the error is in
    the log only.  A failing clear is answered with the error. *)
Theorem failed_paint_is_acknowledged :
  let shown := snd (handle_message (panel paint_fails) (owner "hi") boot) in
  let wiped := snd (clear_command (panel clear_fails) (owner "/clear") boot) in
  replies shown = ["Message sent to e-paper display!"]
  /\ In (ERROR, "Error displaying message: SPI transfer failed") (log shown)
  /\ power_state shown = Active
  /\ replies wiped = ["Error clearing display: SPI transfer failed"].
Proof. vm_compute. repeat split. right. now left. Qed.

(** * Further properties *)

(** ** Every handler, in every environment *)

Lemma cycle_woken (p0 p : power) (new : list entry) (err : option string) :
  cycle p0 new p err -> woken_before_paint new /\ (List.length new <= 3)%nat.
Proof.
  intros H. split; [|destruct H; simpl; lia].
  intros pre c0 o post Heq Hc0.
  destruct H as [e|e|c e Hc|c e Hc|c Hc];
    destruct pre as [|x1 [|x2 [|x3 pre]]]; simpl in Heq;
    inversion Heq; subst; try discriminate Hc0; try reflexivity;
    try (destruct pre; discriminate).
Qed.

Lemma stops_authorized (E : env) (u : update) :
  effective_user_id u = CHAT_ID E -> stops E shutdown u = true.
Proof. intros H. simpl. now apply Z.eqb_eq. Qed.

Lemma handler_run (E : env) (k : kind) (u : update) (w : world) :
  exists w' new,
    handler E k u w = (Return tt, w')
    /\ sink w' = (sink w ++ new)%list
    /\ ((new = [] /\ power_state w' = power_state w)
        \/ (drives E k u = true
            /\ exists err, cycle (power_state w) new (power_state w') err))
    /\ running w' = (if stops E k u then false else running w).
Proof.
  destruct (Z.eq_dec (effective_user_id u) (CHAT_ID E)) as [Hu|Hu].
  2:{ destruct (rejected E k u w Hu) as (w' & Hrun & _ & Hs & Hp & Hg & _).
      exists w', []. rewrite app_nil_r.
      assert (Hst : stops E k u = false).
      { destruct k; simpl; try reflexivity. now apply Z.eqb_neq. }
      rewrite Hst. repeat split; auto. }
  assert (Hd : (effective_user_id u =? CHAT_ID E) = true) by now apply Z.eqb_eq.
  destruct k.
  - exists (snd (start_command E u w)), []. simpl handler.
    unfold start_command. rewrite bind_run. unfold logging at 1.
    rewrite (authorized_test E u Hu). simpl. rewrite app_nil_r.
    repeat split; auto.
  - destruct (clear_command_cycle E u w Hu)
      as (w' & new & err & Hrun & Hs & Hc & Hg & _).
    exists w', new. simpl stops. cbv iota.
    repeat split; auto. right. split; [exact Hd|]. now exists err.
  - exists (snd (shutdown_command E u w)), []. simpl handler.
    rewrite (stops_authorized E u Hu).
    unfold shutdown_command. rewrite bind_run. unfold logging at 1.
    rewrite (authorized_test E u Hu). simpl. rewrite app_nil_r.
    repeat split; auto.
  - destruct (handle_message_authorized E u w Hu)
      as (w' & new & err & Hrun & Hs & Hc & Hg & _).
    exists w', new. simpl stops. cbv iota.
    repeat split; auto. right. split; [exact Hd|]. now exists err.
Qed.

(** X1.  Whatever the environment, a handler makes at most three sink
    calls; it paints or clears only right after a wake that returned in
    the same run; and it makes no sink call at all unless it is the clear
    or the text handler run for the configured identity. *)
Theorem handlers_wake_before_paint (E : env) (k : kind) (u : update)
    (w : world) :
  exists new,
    sink (snd (handler E k u w)) = (sink w ++ new)%list
    /\ woken_before_paint new
    /\ (List.length new <= 3)%nat
    /\ (drives E k u = false -> new = []).
Proof.
  destruct (handler_run E k u w) as (w' & new & -> & Hs & Hc & _).
  exists new. split; [exact Hs|].
  destruct Hc as [[-> _]|[Hd [err Hc]]].
  - split; [|split; [simpl; lia | reflexivity]].
    intros pre c o post Heq. destruct pre; discriminate Heq.
  - destruct (cycle_woken _ _ _ _ Hc) as [Hw Hl].
    repeat split; auto. intros Hd'. congruence.
Qed.

(** X2.  No update other than the [/shutdown] command of the configured
    identity stops the serving loop: a handler that is not that one leaves
    the flag as it was, whatever the environment. *)
Theorem loop_runs_on_unless_shutdown (E : env) (k : kind) (u : update)
    (w : world) :
  stops E k u = false ->
  running (snd (handler E k u w)) = running w.
Proof.
  intros Hst.
  destruct (handler_run E k u w) as (w' & new & -> & _ & _ & Hg).
  simpl. now rewrite Hg, Hst.
Qed.

Lemma loop_runs_on_unless_shutdown_witness :
  running (snd (handler (panel paint_fails) shutdown (stranger "/shutdown") boot))
  = true.
Proof.
  apply (loop_runs_on_unless_shutdown (panel paint_fails) shutdown
           (stranger "/shutdown") boot).
  reflexivity.
Defined.

(** On a transport that delivers: a clear asked by the configured
    identity, when the wake, the clear and the sleep return, makes exactly
    these three sink calls in this order, leaves the panel asleep and
    replies that the display was cleared. *)
Lemma clear_command_cleared (E : env) (u : update) (w : world) :
  effective_user_id u = CHAT_ID E ->
  raises E (clock w) epd_init = None ->
  raises E (S (clock w)) epd_Clear = None ->
  raises E (S (S (clock w))) epd_sleep = None ->
  exists w',
    clear_command E u w = (Return tt, w')
    /\ sink w' = (sink w ++ [(epd_init, None); (epd_Clear, None);
                             (epd_sleep, None)])%list
    /\ power_state w' = Asleep
    /\ replies w' = (replies w ++ ["E-paper display cleared!"])%list
    /\ running w' = running w.
Proof.
  intros Hu R0 R1 R2. unfold clear_command.
  rewrite bind_run. unfold logging at 1.
  rewrite (authorized_test E u Hu).
  unfold try_except. rewrite bind_run. unfold invoke at 1. cbn [clock].
  rewrite R0. rewrite bind_run. unfold invoke at 1. cbn [clock].
  rewrite R1. rewrite bind_run. unfold invoke at 1. cbn [clock].
  rewrite R2.
  eexists. split; [reflexivity|]. simpl. rewrite <- !app_assoc.
  repeat split.
Qed.

Lemma logging_run (l : level) (msg : string) (w : world) :
  logging l msg w
  = (Return tt,
     {| clock := clock w; sink := sink w; power_state := power_state w;
        replies := replies w; log := (log w ++ [(l, msg)])%list;
        running := running w |}).
Proof. reflexivity. Qed.

Lemma invoke_run (E : env) (c : call) (w : world) :
  invoke E c w
  = (match raises E (clock w) c with None => Return tt | Some e => Raise e end,
     {| clock := S (clock w);
        sink := if is_sink c then (sink w ++ [(c, raises E (clock w) c)])%list
                else sink w;
        power_state := match raises E (clock w) c with
                       | None => power_after c (power_state w)
                       | Some _ => power_state w
                       end;
        replies := replies w; log := log w; running := running w |}).
Proof. reflexivity. Qed.

(** X5.  The start of the process either makes the three sink calls wake,
    clear, sleep, all returning, and goes on with the panel asleep, or
    stops at the first call that raises, logs its error and exits with
    status 1 without any further sink call. *)
Theorem startup_outcome (E : env) (w : world) :
  exists w',
    (startup E w = (Return None, w')
     /\ sink w' = (sink w ++ [(epd_init, None); (epd_Clear, None);
                              (epd_sleep, None)])%list
     /\ power_state w' = Asleep)
    \/ (startup E w = (Return (Some 1), w')
        /\ exists pre c e,
             sink w' = (sink w ++ pre ++ [(c, Some e)])%list
             /\ forallb returned pre = true
             /\ log w' = (log w ++ [(INFO, "Initializing e-Paper display...");
                                    (ERROR, ("Error initializing e-Paper display: "
                                             ++ e)%string)])%list).
Proof.
  unfold startup, try_except.
  rewrite bind_run, logging_run.
  rewrite bind_run, invoke_run. cbn [clock].
  destruct (raises E (clock w) epd_init) as [e|] eqn:R0.
  { eexists. right. split; [reflexivity|].
    exists [], epd_init, e. simpl. rewrite <- ?app_assoc. repeat split. }
  rewrite bind_run, invoke_run. cbn [clock].
  destruct (raises E (S (clock w)) epd_Clear) as [e|] eqn:R1.
  { eexists. right. split; [reflexivity|].
    exists [(epd_init, None)], epd_Clear, e. simpl. rewrite <- ?app_assoc.
    repeat split. }
  rewrite bind_run, invoke_run. cbn [clock].
  destruct (raises E (S (S (clock w))) epd_sleep) as [e|] eqn:R2.
  { eexists. right. split; [reflexivity|].
    exists [(epd_init, None); (epd_Clear, None)], epd_sleep, e. simpl.
    rewrite <- ?app_assoc. repeat split. }
  eexists. left. split; [reflexivity|]. simpl. rewrite <- !app_assoc.
  repeat split.
Qed.

(** ** What is handed to the panel *)

Section Frames.

Variable E : env.

Lemma ensures_ret {A} (a : A) (P : A -> Prop) : P a -> ensures (ret a) P.
Proof.
  intros H w a' w' Hrun. unfold ret in Hrun.
  injection Hrun as <- _. exact H.
Qed.

Lemma ensures_bind {A B} (m : M A) (k : A -> M B) (P : A -> Prop)
    (Q : B -> Prop) :
  ensures m P -> (forall a, P a -> ensures (k a) Q) -> ensures (bind m k) Q.
Proof.
  intros Hm Hk w b w' Hrun. rewrite bind_run in Hrun.
  destruct (m w) as [[a|e] w1] eqn:Hmw; [|discriminate Hrun].
  eapply Hk; [eapply Hm; exact Hmw | exact Hrun].
Qed.

Lemma ensures_true {A} (m : M A) : ensures m (fun _ => True).
Proof. intros w a w' _. exact I. Qed.

Lemma ensures_new_image size bg :
  ensures (new_image E size bg)
    (fun img => img = {| img_size := size; img_background := bg;
                         img_text := []; img_rotation := 0 |}).
Proof.
  unfold new_image. eapply ensures_bind; [apply ensures_true|].
  intros _ _. now apply ensures_ret.
Qed.

Lemma ensures_rotate img angle :
  ensures (rotate E img angle)
    (fun img' => img_size img' = (snd (img_size img), fst (img_size img))
                 /\ img_background img' = img_background img
                 /\ img_text img' = img_text img
                 /\ img_rotation img' = (img_rotation img + angle) mod 360).
Proof.
  unfold rotate. eapply ensures_bind; [apply ensures_true|].
  intros _ _. apply ensures_ret. repeat split.
Qed.

Lemma ensures_getbuffer img :
  ensures (getbuffer E img) (fun img' => img' = img).
Proof.
  unfold getbuffer. eapply ensures_bind; [apply ensures_true|].
  intros _ _. now apply ensures_ret.
Qed.

Lemma ensures_text img xy line f :
  ensures (text E img xy line f)
    (fun img' => img_size img' = img_size img
                 /\ img_background img' = img_background img
                 /\ img_rotation img' = img_rotation img
                 /\ img_text img'
                    = (img_text img ++ [(fst xy, snd xy, line, f)])%list).
Proof.
  unfold text. eapply ensures_bind; [apply ensures_true|].
  intros _ _. apply ensures_ret. repeat split.
Qed.

Lemma ensures_wrap_loop_m f W (words : list string) st :
  ensures (wrap_loop_m E f W words st)
    (fun st' => st' = wrap_loop (getlength E f) W words st).
Proof. intros w st' w'. apply wrap_loop_m_returned. Qed.

(** The drawing loop adds the first lines of its list, each at its place,
    and none of them below the bottom margin. *)
Lemma ensures_draw_loop f dh lh (lines : list string) :
  forall y img,
    ensures (draw_loop E f dh lh lines y img)
      (fun img' =>
         img_size img' = img_size img
         /\ img_background img' = img_background img
         /\ img_rotation img' = img_rotation img
         /\ exists n : nat,
              img_text img'
              = (img_text img ++ placed f lh y (firstn n lines))%list
              /\ Forall (fun d => drawn_y d + lh <= dh - 5)
                        (placed f lh y (firstn n lines))).
Proof.
  induction lines as [|line rest IH]; intros y img.
  - simpl. apply ensures_ret. repeat split.
    exists 0%nat. simpl. rewrite app_nil_r. split; [reflexivity | constructor].
  - simpl. destruct (y + lh >? dh - 5) eqn:Hy.
    + apply ensures_ret. repeat split.
      exists 0%nat. simpl. rewrite app_nil_r. split; [reflexivity | constructor].
    + eapply ensures_bind; [apply ensures_text|].
      intros img1 (Hs1 & Hb1 & Hr1 & Ht1) w img' w' Hrun.
      destruct (IH (y + lh) img1 w img' w' Hrun)
        as (Hs & Hb & Hr & n & Ht & Hf).
      repeat split; try congruence.
      exists (S n). simpl. split.
      * rewrite Ht, Ht1. simpl. now rewrite <- app_assoc.
      * constructor; [|exact Hf].
        unfold drawn_y; simpl.
        rewrite Z.gtb_ltb in Hy. apply Z.ltb_ge in Hy. exact Hy.
Qed.

Lemma ensures_compose (message : string) (font_size : Z) :
  ensures (compose E message font_size)
    (fun planes => page_frame E message font_size (fst planes) (snd planes)).
Proof.
  unfold compose.
  eapply ensures_bind; [apply ensures_new_image|]. intros black ->.
  eapply ensures_bind; [apply ensures_new_image|]. intros red ->.
  eapply ensures_bind; [apply ensures_true|]. intros _ _.
  eapply ensures_bind; [apply ensures_true|]. intros _ _.
  cbv zeta.
  eapply ensures_bind; [apply ensures_wrap_loop_m|]. intros st ->.
  eapply ensures_bind; [apply ensures_draw_loop|].
  intros black1 (Hs1 & Hb1 & Hr1 & n & Ht1 & Hf1).
  eapply ensures_bind; [apply ensures_rotate|].
  intros black2 (Hs2 & Hb2 & Ht2 & Hr2).
  eapply ensures_bind; [apply ensures_rotate|].
  intros red2 (Hs3 & Hb3 & Ht3 & Hr3).
  apply ensures_ret. unfold page_frame. simpl in *.
  rewrite Hs2, Hs1, Hb2, Hb1, Hr2, Hr1, Hs3, Hb3, Hr3, Ht3, Ht2, Ht1.
  simpl. repeat split.
  exists n. split; [reflexivity | exact Hf1].
Qed.

Lemma display_message_paints (message : string) (font_size : Z) (w : world) :
  exists new,
    sink (snd (display_message E message font_size w)) = (sink w ++ new)%list
    /\ forall black red o,
         In (epd_display black red, o) new ->
         page_frame E message font_size black red.
Proof.
  unfold display_message, try_except. rewrite bind_run, invoke_run.
  destruct (raises E (clock w) epd_init) as [e|] eqn:R0.
  { eexists. simpl. split; [reflexivity|].
    intros b r o [H|[]]. discriminate H. }
  rewrite bind_run.
  match goal with |- context [compose E message font_size ?w0] =>
    pose proof (quiet_compose E message font_size w0) as S1;
    pose proof (ensures_compose message font_size w0) as F1;
    destruct (compose E message font_size w0) as [[planes|e] w1]
  end.
  2:{ destruct S1 as (Hs1 & _). simpl in Hs1 |- *. rewrite Hs1.
      eexists. split; [reflexivity|].
      intros b r o [H|[]]. discriminate H. }
  specialize (F1 planes w1 eq_refl).
  destruct S1 as (Hs1 & _). simpl in Hs1.
  rewrite bind_run.
  pose proof (quiet_getbuffer E (fst planes) w1) as S2.
  pose proof (ensures_getbuffer (fst planes) w1) as F2.
  destruct (getbuffer E (fst planes) w1) as [[bb|e] w2].
  2:{ destruct S2 as (Hs2 & _). simpl in Hs2 |- *. rewrite Hs2, Hs1.
      eexists. split; [reflexivity|].
      intros b r o [H|[]]. discriminate H. }
  specialize (F2 bb w2 eq_refl). subst bb.
  destruct S2 as (Hs2 & _). simpl in Hs2.
  rewrite bind_run.
  pose proof (quiet_getbuffer E (snd planes) w2) as S3.
  pose proof (ensures_getbuffer (snd planes) w2) as F3.
  destruct (getbuffer E (snd planes) w2) as [[br|e] w3].
  2:{ destruct S3 as (Hs3 & _). simpl in Hs3 |- *. rewrite Hs3, Hs2, Hs1.
      eexists. split; [reflexivity|].
      intros b r o [H|[]]. discriminate H. }
  specialize (F3 br w3 eq_refl). subst br.
  destruct S3 as (Hs3 & _). simpl in Hs3.
  rewrite bind_run, invoke_run.
  destruct (raises E (clock w3) (epd_display (fst planes) (snd planes)))
    as [e|] eqn:R4.
  { simpl. rewrite Hs3, Hs2, Hs1, <- app_assoc.
    eexists. split; [reflexivity|].
    intros b r o [H|[H|[]]]; [discriminate H|].
    injection H as <- <- _. exact F1. }
  rewrite bind_run, logging_run, bind_run, invoke_run. cbn [clock].
  destruct (raises E (S (clock w3)) epd_sleep) as [e|] eqn:R5; simpl;
    rewrite Hs3, Hs2, Hs1, <- !app_assoc;
    (eexists; split; [reflexivity|]);
    intros b r o [H|[H|[H|[]]]]; try discriminate H;
    injection H as <- <- _; exact F1.
Qed.

End Frames.

(** X6.  Whatever the environment, every frame that [display_message]
    hands to the panel has both planes of the native size of the panel,
    white and turned by 270 degrees, an empty red plane, and on the black
    plane the first lines of the wrap of the message and nothing else,
    5 pixels from the left, one line height apart from 5 pixels down, none
    of them reaching below the bottom margin of 5 pixels. *)
Theorem painted_frame_is_a_page (E : env) (message : string) (font_size : Z)
    (w : world) (black red : image) (o : option string) :
  In (epd_display black red, o)
     (sink (snd (display_message E message font_size w))) ->
  In (epd_display black red, o) (sink w)
  \/ page_frame E message font_size black red.
Proof.
  destruct (display_message_paints E message font_size w) as (new & -> & H).
  intros Hin. apply in_app_or in Hin. destruct Hin as [Hin|Hin].
  - now left.
  - right. eapply H. exact Hin.
Qed.

Lemma painted_frame_is_a_page_witness :
  exists black red,
    In (epd_display black red, None)
       (sink (snd (display_message (panel healthy) "Hello world" 24 boot)))
    /\ page_frame (panel healthy) "Hello world" 24 black red.
Proof.
  assert (Hs : exists b r,
             sink (snd (display_message (panel healthy) "Hello world" 24 boot))
             = [(epd_init, None); (epd_display b r, None); (epd_sleep, None)]).
  { vm_compute. eexists _, _. reflexivity. }
  destruct Hs as (b & r & Hs). exists b, r.
  assert (Hin : In (epd_display b r, None)
                   (sink (snd (display_message (panel healthy) "Hello world"
                                 24 boot)))).
  { rewrite Hs. right. now left. }
  split; [exact Hin|].
  destruct (painted_frame_is_a_page (panel healthy) "Hello world" 24 boot
              b r None Hin) as [H|H].
  - contradiction H.
  - exact H.
Defined.

(** ** The panel at rest when nothing raises *)

Section Rest.

Variable E : env.
Hypothesis healthy_env : forall t c, raises E t c = None.

Lemma returns_draw_loop_any f dh lh (lines : list string) :
  forall y img, returns (draw_loop E f dh lh lines y img) (fun _ => True).
Proof.
  induction lines as [|line rest IH]; intros y img; simpl.
  - now apply returns_ret.
  - destruct (y + lh >? dh - 5); [now apply returns_ret|].
    eapply returns_bind; [now apply returns_text|].
    intros img' _. apply IH.
Qed.

Lemma returns_compose_any (message : string) (font_size : Z) :
  returns (compose E message font_size) (fun _ => True).
Proof.
  unfold compose.
  eapply returns_bind; [now apply returns_new_image|]. intros black _.
  eapply returns_bind; [now apply returns_new_image|]. intros red _.
  eapply returns_bind; [now apply returns_invoke|]. intros _ _.
  eapply returns_bind; [now apply returns_invoke|]. intros _ _.
  cbv zeta.
  eapply returns_bind; [now apply returns_wrap_loop_m|]. intros st _.
  eapply returns_bind; [apply returns_draw_loop_any|]. intros black' _.
  eapply returns_bind; [now apply returns_rotate|]. intros black'' _.
  eapply returns_bind; [now apply returns_rotate|]. intros red' _.
  now apply returns_ret.
Qed.

Lemma display_message_rests (message : string) (font_size : Z) (w : world) :
  exists w' black red,
    display_message E message font_size w = (Return tt, w')
    /\ sink w' = (sink w ++ [(epd_init, None);
                             (epd_display black red, None);
                             (epd_sleep, None)])%list
    /\ power_state w' = Asleep.
Proof.
  unfold display_message, try_except.
  rewrite bind_run, invoke_run, healthy_env. rewrite bind_run.
  match goal with |- context [compose E message font_size ?w0] =>
    destruct (returns_compose_any message font_size w0)
      as (planes & w1 & -> & (Hs1 & _) & _)
  end.
  simpl in Hs1. rewrite bind_run.
  destruct (returns_getbuffer E healthy_env (fst planes) w1)
    as (bb & w2 & -> & (Hs2 & _) & ->).
  rewrite bind_run.
  destruct (returns_getbuffer E healthy_env (snd planes) w2)
    as (br & w3 & -> & (Hs3 & _) & ->).
  rewrite bind_run, invoke_run, healthy_env.
  rewrite bind_run, logging_run, bind_run, invoke_run, healthy_env.
  eexists _, (fst planes), (snd planes). split; [reflexivity|]. simpl.
  rewrite Hs3, Hs2, Hs1, <- !app_assoc. split; reflexivity.
Qed.

Lemma handler_rests (k : kind) (u : update) (w : world) :
  exists new,
    sink (snd (handler E k u w)) = (sink w ++ new)%list
    /\ (if drives E k u
        then exists c, paints c = true
                       /\ new = [(epd_init, None); (c, None); (epd_sleep, None)]
        else new = [])
    /\ power_state (snd (handler E k u w))
       = (if drives E k u then Asleep else power_state w).
Proof.
  destruct (drives E k u) eqn:Hd.
  - assert (Hu : effective_user_id u = CHAT_ID E).
    { destruct k; simpl in Hd; try discriminate Hd; now apply Z.eqb_eq. }
    destruct k; simpl in Hd; try discriminate Hd; simpl handler.
    + destruct (clear_command_cleared E u w Hu (healthy_env _ _)
                  (healthy_env _ _) (healthy_env _ _))
        as (w' & -> & Hs & Hp & _).
      eexists. split; [exact Hs|]. split; [|exact Hp].
      exists epd_Clear. now split.
    + unfold handle_message.
      rewrite bind_run, logging_run, (authorized_test E u Hu), bind_run.
      match goal with |- context [display_message E ?m ?f ?w0] =>
        destruct (display_message_rests m f w0)
          as (w1 & black & red & -> & Hs & Hp)
      end.
      simpl in Hs |- *. eexists. split; [exact Hs|]. split; [|exact Hp].
      exists (epd_display black red). now split.
  - destruct (handler_run E k u w) as (w' & new & -> & Hs & Hc & _).
    simpl. destruct Hc as [[-> Hp]|[Hd' _]]; [|congruence].
    exists []. now repeat split.
Qed.

End Rest.

(** X7.  In an environment where no call raises, an update that drives the
    display (a clear or a text of the configured identity) makes exactly
    one wake, one paint or clear and one sleep, in this order, and leaves
    the panel asleep; any other update makes no sink call and leaves the
    panel as it was.  So a panel asleep before an update is asleep after
    it. *)
Theorem panel_rests_asleep (E : env) (k : kind) (u : update) (w : world) :
  (forall t c, raises E t c = None) ->
  (exists new,
     sink (snd (handler E k u w)) = (sink w ++ new)%list
     /\ (if drives E k u
         then exists c, paints c = true
                        /\ new = [(epd_init, None); (c, None); (epd_sleep, None)]
         else new = [])
     /\ power_state (snd (handler E k u w))
        = (if drives E k u then Asleep else power_state w))
  /\ (power_state w = Asleep -> power_state (snd (handler E k u w)) = Asleep).
Proof.
  intros Hh. destruct (handler_rests E Hh k u w) as (new & Hs & Hn & Hp).
  split.
  - now exists new.
  - intros Hw. rewrite Hp. now destruct (drives E k u).
Qed.

Lemma panel_rests_asleep_witness :
  power_state (snd (handler (panel healthy) plain_text (owner "Hello world") boot))
  = Asleep.
Proof.
  apply (panel_rests_asleep (panel healthy) plain_text (owner "Hello world") boot).
  - intros t c. reflexivity.
  - reflexivity.
Defined.

(** ** More on the word wrap *)

Lemma split_blank (s : string) :
  without_spaces s = "" -> Forall (fun w => w = "") (Py.split " " s).
Proof.
  induction s as [|c s IH]; simpl; intros H.
  - now repeat constructor.
  - destruct (Ascii.eqb c " "); [|discriminate H].
    constructor; [reflexivity | now apply IH].
Qed.

Lemma greedy_blank gl W (ws : list string) :
  fits gl W "" = true -> Forall (fun w => w = "") ws -> greedy gl W "" ws = [].
Proof.
  intros Hfit H. induction H as [|w ws -> _ IH]; simpl; [reflexivity|].
  now rewrite Hfit.
Qed.

(** X8.  A message without any character other than the space, the empty
    message among them, gives no line at all, as soon as the empty string
    fits the usable width. *)
Theorem blank_message_no_line (gl : string -> Q) (W : Z) (text : string) :
  without_spaces text = "" ->
  (gl "" <= inject_Z (W - 10))%Q ->
  wrap_lines gl W text = [].
Proof.
  intros Hblank Hfit. unfold wrap_lines, wrap_words. rewrite wrap_greedy.
  simpl app. apply greedy_blank; [now apply fits_true | now apply split_blank].
Qed.

Lemma blank_message_no_line_witness :
  wrap_lines (monospaced 6) 240 "   " = [].
Proof.
  apply (blank_message_no_line (monospaced 6) 240 "   ").
  - reflexivity.
  - vm_compute. discriminate.
Defined.

Lemma greedy_count gl W (ws : list string) :
  forall cur, (List.length (greedy gl W cur ws) <= S (List.length ws))%nat.
Proof.
  induction ws as [|w ws IH]; intros cur; simpl.
  - destruct cur; simpl; lia.
  - destruct (fits gl W (join cur w)).
    + specialize (IH (join cur w)). lia.
    + specialize (IH w). simpl. lia.
Qed.

(** X9.  The wrap never gives more lines than the message has pieces
    between spaces, plus one: each piece closes at most one line. *)
Theorem wrap_lines_count (gl : string -> Q) (W : Z) (text : string) :
  (List.length (wrap_lines gl W text)
   <= S (List.length (Py.split " " text)))%nat.
Proof.
  unfold wrap_lines, wrap_words. rewrite wrap_greedy. apply greedy_count.
Qed.

Lemma split_no_leading_space (s : string) :
  Forall (fun w => starts_with_space w = false) (Py.split " " s).
Proof.
  induction s as [|c s IH]; simpl.
  - now repeat constructor.
  - destruct (Ascii.eqb c " ") eqn:Hc.
    + now constructor.
    + destruct (Py.split " " s) as [|w ws].
      * constructor; [exact Hc | constructor].
      * inversion IH; subst. constructor; [exact Hc | assumption].
Qed.

Lemma join_no_leading_space (cur w : string) :
  starts_with_space cur = false -> starts_with_space w = false ->
  starts_with_space (join cur w) = false.
Proof. destruct cur; simpl; auto. Qed.

Lemma greedy_no_leading_space gl W (ws : list string) :
  forall cur,
    starts_with_space cur = false ->
    Forall (fun w => starts_with_space w = false) ws ->
    Forall (fun l => starts_with_space l = false) (greedy gl W cur ws).
Proof.
  induction ws as [|w ws IH]; intros cur Hcur Hws; simpl.
  - destruct cur; repeat constructor. exact Hcur.
  - inversion Hws; subst.
    destruct (fits gl W (join cur w)).
    + apply IH; [now apply join_no_leading_space | assumption].
    + constructor; [exact Hcur | now apply IH].
Qed.

(** X10.  No line of the wrap begins with a space, whatever the spaces of
    the message. *)
Theorem wrap_lines_no_leading_space (gl : string -> Q) (W : Z) (text : string) :
  Forall (fun line => starts_with_space line = false) (wrap_lines gl W text).
Proof.
  unfold wrap_lines, wrap_words. rewrite wrap_greedy. simpl app.
  apply greedy_no_leading_space; [reflexivity | apply split_no_leading_space].
Qed.

Lemma without_spaces_append (a b : string) :
  without_spaces (a ++ b) = without_spaces a ++ without_spaces b.
Proof.
  induction a as [|c a IH]; simpl; [reflexivity|].
  destruct (Ascii.eqb c " "); simpl; now rewrite IH.
Qed.

Lemma without_spaces_join (cur w : string) :
  without_spaces (join cur w) = without_spaces cur ++ without_spaces w.
Proof.
  destruct cur as [|c s]; [reflexivity|].
  unfold join. rewrite !without_spaces_append. reflexivity.
Qed.

Lemma without_spaces_greedy gl W (ws : list string) :
  forall cur,
    without_spaces (flatten (greedy gl W cur ws))
    = without_spaces cur ++ without_spaces (flatten ws).
Proof.
  induction ws as [|w ws IH]; intros cur; simpl.
  - destruct cur; simpl; [reflexivity|]. now rewrite !append_empty_r.
  - destruct (fits gl W (join cur w)).
    + rewrite IH, without_spaces_join, without_spaces_append.
      now rewrite append_assoc.
    + simpl. rewrite !without_spaces_append, IH. reflexivity.
Qed.

Lemma without_spaces_split (s : string) :
  without_spaces (flatten (Py.split " " s)) = without_spaces s.
Proof.
  induction s as [|c s IH]; simpl; [reflexivity|].
  destruct (Ascii.eqb c " ") eqn:Hc; simpl.
  - exact IH.
  - destruct (Py.split " " s) as [|w ws]; simpl in *.
    + rewrite Hc. now rewrite <- IH.
    + rewrite Hc. now rewrite IH.
Qed.

(** X11.  The wrap loses and adds no character other than spaces: the
    lines, put end to end and read without their spaces, are the message
    read without its spaces; tabs and line breaks are kept. *)
Theorem wrap_lines_keep_characters (gl : string -> Q) (W : Z) (text : string) :
  without_spaces (flatten (wrap_lines gl W text)) = without_spaces text.
Proof.
  unfold wrap_lines, wrap_words. rewrite wrap_greedy. simpl app.
  rewrite without_spaces_greedy. simpl. apply without_spaces_split.
Qed.

(** The pieces of a text, each after the first behind a space, are the
    text. *)
Lemma split_unsplit (s : string) :
  match Py.split " " s with
  | w :: ws => s = w ++ flatten (map (String.append " ") ws)
  | [] => False
  end.
Proof.
  induction s as [|c s IH]; simpl; [reflexivity|].
  destruct (Py.split " " s) as [|w ws]; [contradiction|].
  destruct (Ascii.eqb_spec c " ") as [->|Hc]; simpl; now rewrite IH at 1.
Qed.

Lemma greedy_one_line gl W (ws : list string) :
  monotone gl ->
  forall cur,
    cur <> "" ->
    fits gl W (cur ++ flatten (map (String.append " ") ws)) = true ->
    greedy gl W cur ws = [cur ++ flatten (map (String.append " ") ws)].
Proof.
  intros Hm. induction ws as [|x xs IH]; intros cur Hcur Hfit.
  - simpl in *. rewrite append_empty_r. destruct cur; [congruence | reflexivity].
  - assert (Hj : join cur x = cur ++ " " ++ x)
      by (destruct cur; [congruence | reflexivity]).
    assert (Ht : cur ++ flatten (map (String.append " ") (x :: xs))
                 = join cur x ++ flatten (map (String.append " ") xs)).
    { rewrite Hj, append_assoc. reflexivity. }
    rewrite Ht in Hfit |- *.
    assert (Hfj : fits gl W (join cur x) = true).
    { apply fits_true. apply fits_true in Hfit.
      eapply Qle_trans; [|exact Hfit]. apply (proj1 (Hm _ _)). }
    change (greedy gl W cur (x :: xs))
      with (if fits gl W (join cur x) then greedy gl W (join cur x) xs
            else cur :: greedy gl W x xs).
    rewrite Hfj. apply IH; [|exact Hfit].
    rewrite Hj. destruct cur; [congruence | discriminate].
Qed.

(** X12.  Under a monotone font, a message that does not begin with a
    space and whose measure is within the usable width is laid out as it
    is, on a single line. *)
Theorem fitting_message_one_line (gl : string -> Q) (W : Z) (c : ascii)
    (rest : string) :
  monotone gl ->
  c <> " "%char ->
  (gl (String c rest) <= inject_Z (W - 10))%Q ->
  wrap_lines gl W (String c rest) = [String c rest].
Proof.
  intros Hm Hc Hfit. unfold wrap_lines, wrap_words. rewrite wrap_greedy.
  rewrite app_nil_l. pose proof (split_unsplit (String c rest)) as Hs.
  destruct (Py.split " " (String c rest)) as [|w ws] eqn:Hsp; [contradiction|].
  assert (Hw : w <> "").
  { simpl in Hsp. destruct (Ascii.eqb_spec c " ") as [|_]; [contradiction|].
    destruct (Py.split " " rest); injection Hsp as <- _; discriminate. }
  apply fits_true in Hfit. rewrite Hs in Hfit |- *.
  change (greedy gl W "" (w :: ws))
    with (if fits gl W w then greedy gl W w ws else "" :: greedy gl W w ws).
  assert (Hfw : fits gl W w = true).
  { apply fits_true. apply fits_true in Hfit.
    eapply Qle_trans; [|exact Hfit]. apply (proj1 (Hm _ _)). }
  rewrite Hfw. now apply greedy_one_line.
Qed.

Lemma fitting_message_one_line_witness :
  wrap_lines (monospaced 6) 240 "Hello world" = ["Hello world"].
Proof.
  apply (fitting_message_one_line (monospaced 6) 240 "H" "ello world").
  - apply monospaced_monotone. lia.
  - discriminate.
  - vm_compute. discriminate.
Defined.

(** ** Loading the configuration *)

Module ConfigFacts.

Import Config.

Lemma rstrip_snoc (p : ascii -> bool) (c : ascii) (s : string) :
  p c = true -> rstrip p (s ++ String c "") = rstrip p s.
Proof.
  intros Hc. induction s as [|x s IH]; simpl.
  - now rewrite Hc.
  - now rewrite IH.
Qed.

Lemma rstrip_append (p : ascii -> bool) (a b : string) :
  rstrip p b <> "" -> rstrip p (a ++ b) = a ++ rstrip p b.
Proof.
  intros Hb. induction a as [|x a IH]; simpl; [reflexivity|].
  rewrite IH. destruct (a ++ rstrip p b) eqn:Hab; [|reflexivity].
  destruct a; simpl in Hab; [contradiction | discriminate].
Qed.

Lemma lstrip_append (p : ascii -> bool) (a b : string) :
  a <> "" -> lstrip p a = a -> lstrip p (a ++ b) = a ++ b.
Proof.
  intros Ha H. destruct a as [|x a]; [congruence|].
  simpl in *. destruct (p x) eqn:Hx; [|reflexivity].
  exfalso.
  assert (Hlen : forall s, (String.length (lstrip p s) <= String.length s)%nat).
  { induction s as [|y s IHs]; simpl; [lia|]. destruct (p y); simpl; lia. }
  specialize (Hlen a). rewrite H in Hlen. simpl in Hlen. lia.
Qed.


End ConfigFacts.

(** X13.  When both variables are set, and not empty, in the environment,
    the file is not consulted, whether it exists or not: the token is the
    one of the environment, the identity is the integer read from the
    variable, and a value that is no integer ends the process with status
    1 after an error is logged. *)
Theorem load_config_environment_complete (int : string -> option Z)
    (environ : string -> option string) (config_path : string)
    (config_file : option (list string)) (token chat_id : string) :
  environ "JEWELRYBOX_BOT_TOKEN" = Some token -> token <> "" ->
  environ "JEWELRYBOX_CHAT_ID" = Some chat_id -> chat_id <> "" ->
  Config.load_config int environ config_path config_file
  = match int chat_id with
    | Some n => ([], Config.Credentials token n)
    | None =>
        ([(ERROR, "JEWELRYBOX_CHAT_ID must be an integer, got: " ++ chat_id)],
         Config.SystemExit 1)
    end.
Proof.
  intros Ht Hne Hc Hnc.
  unfold Config.load_config, Config.read_config. rewrite Ht, Hc.
  destruct token as [|a t]; [congruence|].
  destruct chat_id as [|b c]; [congruence|].
  simpl. destruct (int (String b c)); reflexivity.
Qed.

Lemma load_config_environment_complete_witness :
  Config.load_config Config.decimal
    (fun name => if (name =? "JEWELRYBOX_BOT_TOKEN")%string then Some "123:abc"
                 else Some "1001")
    "/home/pi/Desktop/.env" (Some ["JEWELRYBOX_CHAT_ID=7"])
  = ([], Config.Credentials "123:abc" 1001).
Proof.
  apply (load_config_environment_complete Config.decimal
           (fun name => if (name =? "JEWELRYBOX_BOT_TOKEN")%string
                        then Some "123:abc" else Some "1001")
           "/home/pi/Desktop/.env" (Some ["JEWELRYBOX_CHAT_ID=7"])
           "123:abc" "1001");
    (reflexivity || discriminate).
Defined.


(** X15.  A line of the file that is blank, a comment, has no equal sign
    or names another key sets nothing: wherever it stands in the file, the
    result of [load_config] is the one of the file without it. *)
Theorem inert_line_ignored (int : string -> option Z)
    (environ : string -> option string) (config_path : string)
    (before : list string) (line : string) (after : list string) :
  Config.inert line = true ->
  Config.load_config int environ config_path (Some (before ++ line :: after)%list)
  = Config.load_config int environ config_path (Some (before ++ after)%list).
Proof.
  intros Hinert.
  assert (Hline : forall st, Config.config_line st line = st).
  { intros st. unfold Config.inert in Hinert. unfold Config.config_line.
    destruct (negb (Py.truthy (Config.strip line))
              || Config.is_comment (Config.strip line)); [reflexivity|].
    simpl in Hinert.
    destruct (Config.partition "=" (Config.strip line)) as [[key value]|];
      [|reflexivity].
    apply andb_true_iff in Hinert. destruct Hinert as [H1 H2].
    apply negb_true_iff in H1. apply negb_true_iff in H2.
    now rewrite H1, H2. }
  unfold Config.load_config, Config.read_config.
  destruct (Config.missing _ || Config.missing _); [|reflexivity].
  rewrite !fold_left_app. simpl. now rewrite Hline.
Qed.

Lemma inert_line_ignored_witness :
  Config.load_config Config.decimal (fun _ => None) "/home/pi/Desktop/.env"
    (Some ["JEWELRYBOX_BOT_TOKEN=123:abc"; "# the owner"; "JEWELRYBOX_CHAT_ID=1001"])
  = Config.load_config Config.decimal (fun _ => None) "/home/pi/Desktop/.env"
      (Some ["JEWELRYBOX_BOT_TOKEN=123:abc"; "JEWELRYBOX_CHAT_ID=1001"]).
Proof.
  apply (inert_line_ignored Config.decimal (fun _ => None)
           "/home/pi/Desktop/.env" ["JEWELRYBOX_BOT_TOKEN=123:abc"]
           "# the owner" ["JEWELRYBOX_CHAT_ID=1001"]).
  reflexivity.
Defined.

Module ConfigLines.

Import Config.

Lemma strip_plain (value : string) : plain value -> strip value = value.
Proof. intros (H1 & H2 & _). unfold strip, strip_by. now rewrite H1. Qed.

Lemma strip_quotes_plain (value : string) :
  plain value -> strip_by is_quote value = value.
Proof. intros (_ & _ & H3 & H4). unfold strip_by. now rewrite H3. Qed.

Lemma strip_assignment (key value : string) :
  key <> "" -> lstrip Py.isspace key = key ->
  plain value -> value <> "" ->
  strip (key ++ value ++ String LF "") = key ++ value.
Proof.
  intros Hk Hl (H1 & H2 & _) Hv. unfold strip, strip_by.
  rewrite (ConfigFacts.lstrip_append Py.isspace key _ Hk Hl).
  rewrite ConfigFacts.rstrip_append.
  - now rewrite ConfigFacts.rstrip_snoc, H2.
  - rewrite ConfigFacts.rstrip_snoc, H2 by reflexivity. exact Hv.
Qed.

Lemma token_line_read st (value : string) :
  plain value -> value <> "" ->
  config_line st ("JEWELRYBOX_BOT_TOKEN=" ++ value ++ String LF "")
  = (Some value, snd st).
Proof.
  intros Hp Hv. unfold config_line.
  rewrite (strip_assignment "JEWELRYBOX_BOT_TOKEN=" value) by
    (first [discriminate | reflexivity | assumption]).
  change (partition "=" ("JEWELRYBOX_BOT_TOKEN=" ++ value))
    with (Some ("JEWELRYBOX_BOT_TOKEN", value)).
  change (Py.truthy ("JEWELRYBOX_BOT_TOKEN=" ++ value)) with true.
  change (is_comment ("JEWELRYBOX_BOT_TOKEN=" ++ value)) with false.
  cbv iota beta. change (strip "JEWELRYBOX_BOT_TOKEN") with "JEWELRYBOX_BOT_TOKEN".
  change (negb true || false) with false. cbv iota.
  change ("JEWELRYBOX_BOT_TOKEN" =? "JEWELRYBOX_BOT_TOKEN")%string with true.
  cbv iota. now rewrite (strip_plain value Hp), (strip_quotes_plain value Hp).
Qed.

Lemma chat_line_read st (value : string) :
  plain value -> value <> "" ->
  config_line st ("JEWELRYBOX_CHAT_ID=" ++ value ++ String LF "")
  = (fst st, Some value).
Proof.
  intros Hp Hv. unfold config_line.
  rewrite (strip_assignment "JEWELRYBOX_CHAT_ID=" value) by
    (first [discriminate | reflexivity | assumption]).
  change (partition "=" ("JEWELRYBOX_CHAT_ID=" ++ value))
    with (Some ("JEWELRYBOX_CHAT_ID", value)).
  change (Py.truthy ("JEWELRYBOX_CHAT_ID=" ++ value)) with true.
  change (is_comment ("JEWELRYBOX_CHAT_ID=" ++ value)) with false.
  cbv iota beta. change (strip "JEWELRYBOX_CHAT_ID") with "JEWELRYBOX_CHAT_ID".
  change (negb true || false) with false. cbv iota.
  change ("JEWELRYBOX_CHAT_ID" =? "JEWELRYBOX_BOT_TOKEN")%string with false.
  change ("JEWELRYBOX_CHAT_ID" =? "JEWELRYBOX_CHAT_ID")%string with true.
  cbv iota. now rewrite (strip_plain value Hp), (strip_quotes_plain value Hp).
Qed.

(** A value between two quotes is read without them. *)
Lemma quoted_value (q : ascii) (value : string) :
  is_quote q = true -> plain value -> value <> "" ->
  strip_by is_quote (strip (String q (value ++ String q ""))) = value.
Proof.
  intros Hq (H1 & H2 & H3 & H4) Hv.
  assert (Hqs : Py.isspace q = false).
  { unfold is_quote in Hq. apply orb_true_iff in Hq.
    destruct Hq as [Hq|Hq]; apply Ascii.eqb_eq in Hq; subst q; reflexivity. }
  assert (Hstrip : strip (String q (value ++ String q "")) 
                   = String q (value ++ String q "")).
  { unfold strip, strip_by. simpl lstrip. rewrite Hqs.
    change (String q (value ++ String q ""))
      with ((String q value) ++ String q "").
    rewrite ConfigFacts.rstrip_append; [|simpl; rewrite Hqs; discriminate].
    simpl. now rewrite Hqs. }
  rewrite Hstrip. unfold strip_by. simpl lstrip. rewrite Hq.
  rewrite (ConfigFacts.lstrip_append is_quote value _ Hv H3).
  now rewrite ConfigFacts.rstrip_snoc.
Qed.

End ConfigLines.

(** X16.  When the environment lacks one of the two variables and the
    file holds a line for the token and a line for the identity, each of
    the form KEY=value with a value that stripping leaves as it is, the
    values of the file are taken, also in place of a value that the
    environment gives: the token is the one of the file and the identity
    is read from the text of the file. *)
Theorem config_file_read (int : string -> option Z)
    (environ : string -> option string) (config_path : string)
    (token chat_id : string) :
  Config.missing (environ "JEWELRYBOX_BOT_TOKEN")
  || Config.missing (environ "JEWELRYBOX_CHAT_ID") = true ->
  Config.plain token -> token <> "" ->
  Config.plain chat_id -> chat_id <> "" ->
  Config.load_config int environ config_path
    (Some ["JEWELRYBOX_BOT_TOKEN=" ++ token ++ String LF "";
           "JEWELRYBOX_CHAT_ID=" ++ chat_id ++ String LF ""])
  = match int chat_id with
    | Some n =>
        ([(INFO, "Loading config from " ++ config_path)],
         Config.Credentials token n)
    | None =>
        ([(INFO, "Loading config from " ++ config_path);
          (ERROR, "JEWELRYBOX_CHAT_ID must be an integer, got: " ++ chat_id)],
         Config.SystemExit 1)
    end.
Proof.
  intros Hmiss Ht Htn Hc Hcn.
  unfold Config.load_config, Config.read_config. rewrite Hmiss.
  cbn [fold_left].
  rewrite (ConfigLines.token_line_read _ token Ht Htn).
  rewrite (ConfigLines.chat_line_read _ chat_id Hc Hcn).
  destruct token as [|a t]; [congruence|].
  destruct chat_id as [|b c]; [congruence|].
  cbn [fst snd]. destruct (int (String b c)); reflexivity.
Qed.

Lemma config_file_read_witness :
  Config.load_config Config.decimal
    (fun name => if (name =? "JEWELRYBOX_BOT_TOKEN")%string
                 then Some "stale" else None)
    "/home/pi/Desktop/.env"
    (Some ["JEWELRYBOX_BOT_TOKEN=" ++ "123:abc" ++ String LF "";
           "JEWELRYBOX_CHAT_ID=" ++ "1001" ++ String LF ""])
  = ([(INFO, "Loading config from /home/pi/Desktop/.env")],
     Config.Credentials "123:abc" 1001).
Proof.
  apply (config_file_read Config.decimal
           (fun name => if (name =? "JEWELRYBOX_BOT_TOKEN")%string
                        then Some "stale" else None)
           "/home/pi/Desktop/.env" "123:abc" "1001").
  - reflexivity.
  - repeat split.
  - discriminate.
  - repeat split.
  - discriminate.
Defined.

(** X17.  A value written between two single quotes or two double quotes
    is read without them: the value that [config_line] keeps for such a
    line is the text between the quotes. *)
Theorem quoted_token_read (st : option string * option string) (q : ascii)
    (value : string) :
  Config.is_quote q = true ->
  Config.plain value -> value <> "" ->
  Config.config_line st
    ("JEWELRYBOX_BOT_TOKEN=" ++ String q (value ++ String q (String LF "")))
  = (Some value, snd st).
Proof.
  intros Hq Hp Hv.
  assert (Hqs : Py.isspace q = false).
  { unfold Config.is_quote in Hq. apply orb_true_iff in Hq.
    destruct Hq as [Hq|Hq]; apply Ascii.eqb_eq in Hq; subst q; reflexivity. }
  assert (Hline : Config.strip ("JEWELRYBOX_BOT_TOKEN="
                                ++ String q (value ++ String q (String LF "")))
                  = "JEWELRYBOX_BOT_TOKEN=" ++ String q (value ++ String q "")).
  { unfold Config.strip, Config.strip_by.
    rewrite (ConfigFacts.lstrip_append Py.isspace "JEWELRYBOX_BOT_TOKEN=")
      by (discriminate || reflexivity).
    assert (Hr : Config.rstrip Py.isspace
                   (String q (value ++ String q (String LF "")))
                 = String q (value ++ String q "")).
    { change (String q (value ++ String q (String LF "")))
        with (String q value ++ (String q "" ++ String LF "")).
      rewrite <- append_assoc, ConfigFacts.rstrip_snoc by reflexivity.
      rewrite ConfigFacts.rstrip_append; simpl; rewrite Hqs;
        [reflexivity | discriminate]. }
    rewrite ConfigFacts.rstrip_append; rewrite Hr; [reflexivity | discriminate]. }
  unfold Config.config_line. rewrite Hline.
  change (Config.partition "="
            ("JEWELRYBOX_BOT_TOKEN=" ++ String q (value ++ String q "")))
    with (Some ("JEWELRYBOX_BOT_TOKEN", String q (value ++ String q ""))).
  change (Py.truthy ("JEWELRYBOX_BOT_TOKEN=" ++ String q (value ++ String q "")))
    with true.
  change (Config.is_comment
            ("JEWELRYBOX_BOT_TOKEN=" ++ String q (value ++ String q "")))
    with false.
  cbv iota beta.
  change (Config.strip "JEWELRYBOX_BOT_TOKEN") with "JEWELRYBOX_BOT_TOKEN".
  change (negb true || false) with false. cbv iota.
  change ("JEWELRYBOX_BOT_TOKEN" =? "JEWELRYBOX_BOT_TOKEN")%string with true.
  cbv iota. now rewrite (ConfigLines.quoted_value q value Hq Hp Hv).
Qed.

Lemma quoted_token_read_witness :
  Config.config_line (None, None)
    ("JEWELRYBOX_BOT_TOKEN=" ++ String "'" ("123:abc" ++ String "'" (String LF "")))
  = (Some "123:abc", None).
Proof.
  apply (quoted_token_read (None, None) "'" "123:abc").
  - reflexivity.
  - repeat split.
  - discriminate.
Defined.

(** ** The clear command on a transport that may fail *)

Lemma reply_text_via_run (sends : world -> string -> option string)
    (msg : string) (w : world) :
  reply_text_via sends msg w
  = match sends w msg with
    | None =>
        (Return tt,
         {| clock := clock w; sink := sink w; power_state := power_state w;
            replies := (replies w ++ [msg])%list; log := log w;
            running := running w |})
    | Some e => (Raise e, w)
    end.
Proof. unfold reply_text_via. destruct (sends w msg); reflexivity. Qed.

(** With a transport that delivers, the command is the one modelled with
    [reply_text]. *)
Lemma clear_command_via_delivers (E : env)
    (sends : world -> string -> option string) (u : update) (w : world) :
  (forall w0 msg, sends w0 msg = None) ->
  clear_command_via E sends u w = clear_command E u w.
Proof.
  intros Hd. unfold clear_command_via, clear_command.
  rewrite !bind_run, !logging_run.
  destruct (negb (effective_user_id u =? CHAT_ID E)).
  - rewrite !bind_run, !logging_run, reply_text_via_run, Hd. reflexivity.
  - unfold try_except. rewrite !bind_run, !invoke_run. cbn [clock].
    destruct (raises E (clock w) epd_init) as [e|].
    { rewrite !bind_run, !logging_run, reply_text_via_run, Hd. reflexivity. }
    rewrite !bind_run, !invoke_run. cbn [clock].
    destruct (raises E (S (clock w)) epd_Clear) as [e|].
    { rewrite !bind_run, !logging_run, reply_text_via_run, Hd. reflexivity. }
    rewrite !bind_run, !invoke_run. cbn [clock].
    destruct (raises E (S (S (clock w))) epd_sleep) as [e|].
    { rewrite !bind_run, !logging_run, reply_text_via_run, Hd. reflexivity. }
    rewrite !bind_run, reply_text_via_run, Hd. reflexivity.
Qed.

(** X3.  A clear asked by the configured identity, when the wake, the
    clear and the sleep return and the transport delivers the notice of
    success, makes exactly these three sink calls in this order, leaves
    the panel asleep, replies that the display was cleared and returns. *)
Theorem clear_via_cleared (E : env)
    (sends : world -> string -> option string) (u : update) (w : world) :
  effective_user_id u = CHAT_ID E ->
  raises E (clock w) epd_init = None ->
  raises E (S (clock w)) epd_Clear = None ->
  raises E (S (S (clock w))) epd_sleep = None ->
  (forall w0, sends w0 "E-paper display cleared!" = None) ->
  exists w',
    clear_command_via E sends u w = (Return tt, w')
    /\ sink w' = (sink w ++ [(epd_init, None); (epd_Clear, None);
                             (epd_sleep, None)])%list
    /\ power_state w' = Asleep
    /\ replies w' = (replies w ++ ["E-paper display cleared!"])%list
    /\ running w' = running w.
Proof.
  intros Hu R0 R1 R2 Hd. unfold clear_command_via.
  rewrite bind_run, logging_run, (authorized_test E u Hu).
  unfold try_except.
  rewrite bind_run, invoke_run. cbn [clock]. rewrite R0.
  rewrite bind_run, invoke_run. cbn [clock]. rewrite R1.
  rewrite bind_run, invoke_run. cbn [clock]. rewrite R2.
  rewrite bind_run, reply_text_via_run, Hd, logging_run.
  eexists. split; [reflexivity|]. simpl. rewrite <- !app_assoc.
  repeat split.
Qed.

Lemma clear_via_cleared_witness :
  exists w',
    clear_command_via (panel healthy) delivers (owner "/clear") boot
    = (Return tt, w')
    /\ sink w' = [(epd_init, None); (epd_Clear, None); (epd_sleep, None)]
    /\ power_state w' = Asleep
    /\ replies w' = ["E-paper display cleared!"]
    /\ running w' = true.
Proof.
  apply (clear_via_cleared (panel healthy) delivers (owner "/clear") boot);
    reflexivity.
Defined.

(** X4.  The outcomes of a clear asked by the configured identity, on any
    environment and any transport.  Either the three sink calls returned
    and the notice of success was delivered, with no error logged.  Or an
    error [e] was caught: the last sink call made raised it, or the
    three sink calls returned and the notice of success raised it; it is
    logged, and the reply carrying its text is attempted: delivered, the
    command returns; raising, the exception leaves the handler and no
    reply was delivered. *)
Theorem clear_via_outcomes (E : env)
    (sends : world -> string -> option string) (u : update) (w : world) :
  effective_user_id u = CHAT_ID E ->
  exists r w' new,
    clear_command_via E sends u w = (r, w')
    /\ sink w' = (sink w ++ new)%list
    /\ ((r = Return tt
         /\ new = [(epd_init, None); (epd_Clear, None); (epd_sleep, None)]
         /\ power_state w' = Asleep
         /\ replies w' = (replies w ++ ["E-paper display cleared!"])%list
         /\ Forall (fun x => fst x = INFO) (skipn (List.length (log w)) (log w')))
        \/ (exists e,
              ((exists c, last new (epd_init, None) = (c, Some e))
               \/ (new = [(epd_init, None); (epd_Clear, None); (epd_sleep, None)]
                   /\ exists w3, sends w3 "E-paper display cleared!" = Some e))
              /\ In (ERROR, ("Error clearing display via command: " ++ e)%string)
                    (log w')
              /\ ((r = Return tt
                   /\ replies w'
                      = (replies w
                         ++ [("Error clearing display: " ++ e)%string])%list)
                  \/ (exists e', r = Raise e' /\ replies w' = replies w)))).
Proof.
  intros Hu. unfold clear_command_via.
  rewrite bind_run, logging_run, (authorized_test E u Hu).
  unfold try_except.
  rewrite bind_run, invoke_run. cbn [clock].
  destruct (raises E (clock w) epd_init) as [e|] eqn:R0.
  { rewrite bind_run, logging_run, reply_text_via_run.
    match goal with |- context [sends ?w0 ?m] =>
      destruct (sends w0 m) as [e'|] eqn:Hsend end;
      (eexists _, _, [(epd_init, Some e)]; split; [reflexivity|];
       split; [reflexivity|]; right; exists e; split;
       [left; now exists epd_init|]; split;
       [simpl; rewrite !in_app_iff; simpl; auto|]).
    - right. now exists e'.
    - left. now split. }
  rewrite bind_run, invoke_run. cbn [clock].
  destruct (raises E (S (clock w)) epd_Clear) as [e|] eqn:R1.
  { rewrite bind_run, logging_run, reply_text_via_run.
    match goal with |- context [sends ?w0 ?m] =>
      destruct (sends w0 m) as [e'|] eqn:Hsend end;
      (eexists _, _, [(epd_init, None); (epd_Clear, Some e)];
       split; [reflexivity|];
       split; [simpl; now rewrite <- !app_assoc|]; right; exists e; split;
       [left; now exists epd_Clear|]; split;
       [simpl; rewrite !in_app_iff; simpl; auto|]).
    - right. now exists e'.
    - left. now split. }
  rewrite bind_run, invoke_run. cbn [clock].
  destruct (raises E (S (S (clock w))) epd_sleep) as [e|] eqn:R2.
  { rewrite bind_run, logging_run, reply_text_via_run.
    match goal with |- context [sends ?w0 ?m] =>
      destruct (sends w0 m) as [e'|] eqn:Hsend end;
      (eexists _, _, [(epd_init, None); (epd_Clear, None); (epd_sleep, Some e)];
       split; [reflexivity|];
       split; [simpl; now rewrite <- !app_assoc|]; right; exists e; split;
       [left; now exists epd_sleep|]; split;
       [simpl; rewrite !in_app_iff; simpl; auto|]).
    - right. now exists e'.
    - left. now split. }
  rewrite bind_run, reply_text_via_run.
  match goal with |- context [sends ?w0 "E-paper display cleared!"] =>
    destruct (sends w0 "E-paper display cleared!") as [e|] eqn:Hsuccess end.
  { rewrite bind_run, logging_run, reply_text_via_run.
    match goal with |- context [sends ?w0 (_ ++ e)%string] =>
      destruct (sends w0 ("Error clearing display: " ++ e)%string)
        as [e'|] eqn:Hsend end;
      (eexists _, _, [(epd_init, None); (epd_Clear, None); (epd_sleep, None)];
       split; [reflexivity|];
       split; [simpl; now rewrite <- !app_assoc|]; right; exists e; split;
       [right; split; [reflexivity | eexists; exact Hsuccess]|]; split;
       [simpl; rewrite !in_app_iff; simpl; auto|]).
    - right. now exists e'.
    - left. now split. }
  rewrite logging_run.
  eexists _, _, [(epd_init, None); (epd_Clear, None); (epd_sleep, None)].
  split; [reflexivity|]. split; [simpl; now rewrite <- !app_assoc|].
  left. simpl. repeat split.
  rewrite <- app_assoc, skipn_app, skipn_all, Nat.sub_diag. simpl.
  repeat constructor.
Qed.

Lemma clear_via_outcomes_witness :
  clear_command_via (panel healthy) loses_success (owner "/clear") boot
  = (Return tt,
     {| clock := 3;
        sink := [(epd_init, None); (epd_Clear, None); (epd_sleep, None)];
        power_state := Asleep;
        replies := ["Error clearing display: Timed out"];
        log := [(INFO, "Received /clear command from 1001");
                (ERROR, "Error clearing display via command: Timed out")];
        running := true |})
  /\ exists r w' new,
       clear_command_via (panel healthy) loses_success (owner "/clear") boot
       = (r, w')
       /\ sink w' = new.
Proof.
  split; [reflexivity|].
  destruct (clear_via_outcomes (panel healthy) loses_success (owner "/clear")
              boot eq_refl) as (r & w' & new & Hrun & Hs & _).
  now exists r, w', new.
Defined.
